(** * Avro schema tooling: case transformation and dacite configuration

    A shallow embedding of
      - automation/py/avro-schema/case_avro.py   (case_item, case_record)
      - automation/py/avro-schema/dacite_config.py (type hooks, generate_dacite_config)
    together with the properties of these functions. *)

From Stdlib Require Import String Ascii List ZArith Bool Lia Arith.
Import ListNotations.
Set Warnings "-register-all".
Open Scope string_scope.
Open Scope list_scope.

(** ** Python exceptions and the error monad *)

(** The exception classes the modelled code raises or lets through.  Only
    [ValueError] carries its message: the messages of the other classes are
    produced by the interpreter, not by this code. *)
Inductive exn : Type :=
| ValueError (msg : string)
| TypeError
| AttributeError
| OverflowError.

Inductive result (A : Type) : Type :=
| Ok (a : A)
| Err (e : exn).
Arguments Ok {A} a.
Arguments Err {A} e.

Definition bind {A B : Type} (r : result A) (k : A -> result B) : result B :=
  match r with
  | Ok a => k a
  | Err e => Err e
  end.

Notation "x <- r ;; k" := (bind r (fun x => k))
  (at level 61, r at next level, right associativity).

Definition is_ok {A : Type} (r : result A) : bool :=
  match r with Ok _ => true | Err _ => false end.

Definition is_err {A : Type} (r : result A) : bool := negb (is_ok r).

(** A list comprehension [[f(x) for x in l]]: elements are visited from left
    to right and the first exception ends the evaluation. *)
Definition mapM {A B : Type} (f : A -> result B) : list A -> result (list B) :=
  fix go (l : list A) : result (list B) :=
    match l with
    | [] => Ok []
    | x :: l' => y <- f x ;; ys <- go l' ;; Ok (y :: ys)
    end.

(** ** Schema documents *)

(** The values a schema document is built from.  A [dict] is kept as the list
    of its items in insertion order; the keys of a Python dict are pairwise
    distinct.  A float is a decimal mantissa and exponent. *)
Inductive json : Type :=
| JNull
| JBool (b : bool)
| JInt (n : Z)
| JFloat (m e : Z)
| JStr (s : string)
| JList (l : list json)
| JDict (d : list (string * json)).

Definition dict (V : Type) : Type := list (string * V).

(** [d.get(key)] *)
Fixpoint dict_get {V : Type} (key : string) (d : dict V) : option V :=
  match d with
  | [] => None
  | (k, v) :: d' => if String.eqb k key then Some v else dict_get key d'
  end.

(** [key in d] *)
Definition dict_has {V : Type} (key : string) (d : dict V) : bool :=
  match dict_get key d with Some _ => true | None => false end.

(** [d[key] = value]: an existing key keeps its place, a new one goes last. *)
Fixpoint dict_set {V : Type} (key : string) (value : V) (d : dict V) : dict V :=
  match d with
  | [] => [(key, value)]
  | (k, v) :: d' =>
      if String.eqb k key then (k, value) :: d' else (k, v) :: dict_set key value d'
  end.

(** [list(d.keys())] *)
Definition dict_keys {V : Type} (d : dict V) : list string := map fst d.

(** Truth value of an object, as tested by [if fields:]. *)
Definition truthy (v : json) : bool :=
  match v with
  | JNull => false
  | JBool b => b
  | JInt n => negb (Z.eqb n 0)
  | JFloat m _ => negb (Z.eqb m 0)
  | JStr s => negb (String.eqb s "")
  | JList l => match l with [] => false | _ => true end
  | JDict d => match d with [] => false | _ => true end
  end.

(** The one-character strings of [s], as [for c in s] yields them. *)
Fixpoint chars (s : string) : list string :=
  match s with
  | EmptyString => []
  | String c s' => String c EmptyString :: chars s'
  end.

(** [for field in v]: lists yield their elements, strings their characters,
    dicts their keys; nothing else is iterable. *)
Definition py_iter (v : json) : result (list json) :=
  match v with
  | JList l => Ok l
  | JStr s => Ok (map JStr (chars s))
  | JDict d => Ok (map JStr (dict_keys d))
  | _ => Err TypeError
  end.

(** ** The case functions *)

(** The functions [CASE_TO_FUNC] refers to: those of the [casefy] package and
    [str.strip].  They are not part of this code base; the transformer is
    modelled over any implementation of them. *)
Record casefy_api : Type := {
  camelcase : string -> string;
  capitalcase : string -> string;
  constcase : string -> string;
  lowercase : string -> string;
  pascalcase : string -> string;
  separatorcase : string -> string -> string;  (* value, separator *)
  snakecase : string -> string;
  kebabcase : string -> string;
  upperkebabcase : string -> string;
  str_strip : string -> string;
  uppercase : string -> string;
  alphanumcase : string -> string;
  (* the exception a casefy function, named by its token, raises on a true
     value that is not a string *)
  non_string_error : string -> json -> exn
}.

Definition CAMELCASE := "camelcase".
Definition CAPITALCASE := "capitalcase".
Definition CONSTCASE := "constcase".
Definition LOWERCASE := "lowercase".
Definition PASCALCASE := "pascalcase".
Definition PATHCASE := "pathcase".
Definition SNAKECASE := "snakecase".
Definition SPINALCASE := "spinalcase".
Definition UPPERSPINALCASE := "upperkebabcase".
Definition TRIMCASE := "trimcase".
Definition UPPERCASE := "uppercase".
Definition ALPHANUMCASE := "alphanumcase".

(** Modelled from the spec: the constant [ENUM] of fields/field_utils.py, which
    is not among the sources; the spec gives the test as [type == "enum"]. *)
Definition ENUM := "enum".

Definition CASE_TO_FUNC (casefy : casefy_api) : dict (string -> string) :=
  [ (CAMELCASE, camelcase casefy);
    (CAPITALCASE, capitalcase casefy);
    (CONSTCASE, constcase casefy);
    (LOWERCASE, lowercase casefy);
    (PASCALCASE, pascalcase casefy);
    (PATHCASE, fun value => separatorcase casefy value "/");
    (SNAKECASE, snakecase casefy);
    (SPINALCASE, kebabcase casefy);
    (UPPERSPINALCASE, upperkebabcase casefy);
    (TRIMCASE, str_strip casefy);
    (UPPERCASE, uppercase casefy);
    (ALPHANUMCASE, alphanumcase casefy) ].

(** The twelve tokens, in the order of the table. *)
Definition case_tokens : list string :=
  [ "camelcase"; "capitalcase"; "constcase"; "lowercase"; "pascalcase";
    "pathcase"; "snakecase"; "spinalcase"; "upperkebabcase"; "trimcase";
    "uppercase"; "alphanumcase" ].

(** [repr] of a list of plain strings, as an f-string prints it. *)
Definition repr_str (s : string) : string := "'" ++ s ++ "'".

Definition repr_list (l : list string) : string :=
  "[" ++ String.concat ", " (map repr_str l) ++ "]".

Definition unsupported_case_message (case_type : string) (valid : list string) : string :=
  "Unsupported case type '" ++ case_type ++ "'. Valid types are: " ++ repr_list valid.

(** Whether the function registered under a token is one of casefy.  The
    functions of casefy begin with [if not string: return ""]; the one
    registered under [trimcase] is [str.strip], a method of [str]. *)
Definition casefy_function (case_type : string) : bool :=
  negb (String.eqb case_type TRIMCASE).

(** [case_func(value)], the call on the value of a [name] key; the source
    does not test the type of [value].  On a value that is not a string:
    [str.strip] is a [TypeError]; a casefy function takes its first branch on
    every false argument (None, 0, an empty list or dict), as it does on the
    empty string, and so returns what it returns for the empty string; on a
    true argument it raises. *)
Definition apply_case (casefy : casefy_api) (case_type : string)
    (case_func : string -> string) (value : json) : result json :=
  match value with
  | JStr s => Ok (JStr (case_func s))
  | _ =>
      if casefy_function case_type then
        if truthy value then Err (non_string_error casefy case_type value)
        else Ok (JStr (case_func ""))
      else Err TypeError
  end.

(** [avro_schema_dict.get("type") == ENUM] *)
Definition is_enum (d : dict json) : bool :=
  match dict_get "type" d with
  | Some (JStr t) => String.eqb t ENUM
  | _ => false
  end.

Section CaseTransformer.

Variable casefy : casefy_api.
Variable case_type : string.

(** The first two statements of [case_item]: the lookup of the case
    function and the error raised when there is none. *)
Definition lookup_case : result (string -> string) :=
  match dict_get case_type (CASE_TO_FUNC casefy) with
  | Some case_func => Ok case_func
  | None =>
      Err (ValueError
             (unsupported_case_message case_type (dict_keys (CASE_TO_FUNC casefy))))
  end.

(** [case_item] on an item that is not a dict: once the case function is
    found, [item.items()] fails. *)
Definition case_item_nondict : result json :=
  _ <- lookup_case ;; Err AttributeError.

(** The part of [case_record] after the enum test, over the function
    [item_fn] that stands for [case_item]: it walks the items [l] of the
    dict [d] of [schema] for the key [fields], so that the elements of the
    list found are visibly parts of [schema]. *)
Definition case_fields (item_fn : json -> result json) (schema : json)
    (d : dict json) : dict json -> result json :=
  fix scan (l : dict json) : result json :=
    match l with
    | [] => item_fn schema
    | (k, fields) :: l' =>
        if String.eqb k "fields" then
          if truthy fields then
            match fields with
            | JList elems =>
                fields' <- mapM item_fn elems ;;
                Ok (JDict (dict_set "fields" (JList fields') d))
            | JStr _ | JDict _ =>
                (* a non-empty string or dict yields strings *)
                case_item_nondict
            | _ => Err TypeError
            end
          else item_fn schema
        else scan l'
    end.

Definition case_record_body (item_fn : json -> result json) (schema : json)
  : result json :=
  match schema with
  | JDict d => if is_enum d then Ok schema else case_fields item_fn schema d d
  | _ => Err AttributeError
  end.

(** [case_item(item, case_type)].  The loop over [item.items()] is the local
    [items]; where the source calls [case_record], on a nested dict or on the
    dicts of a list, the body of [case_record] is run on [case_item] itself.
    The lemmas [case_item_eq] and [case_record_eq] state both functions in
    the shape of the source. *)
Fixpoint case_item (item : json) {struct item} : result json :=
  case_func <- lookup_case ;;
  match item with
  | JDict kvs =>
      transformed_item <-
        (fix items (l : dict json) : result (dict json) :=
           match l with
           | [] => Ok []
           | (key, value) :: l' =>
               value' <-
                 (if String.eqb key "name" then apply_case casefy case_type case_func value
                  else
                    match value with
                    | JDict d' =>
                        if dict_has "name" d'
                        then case_record_body case_item value
                        else Ok value
                    | JList elems =>
                        elems' <-
                          mapM (fun element =>
                                  match element with
                                  | JDict _ => case_record_body case_item element
                                  | _ => Ok element
                                  end) elems ;;
                        Ok (JList elems')
                    | _ => Ok value
                    end) ;;
               rest <- items l' ;;
               Ok ((key, value') :: rest)
           end) kvs ;;
      Ok (JDict transformed_item)
  | _ => Err AttributeError
  end.

(** [case_record(avro_schema_dict, case_type)].  In the branch of a true
    [fields] the source stores the new list in its argument and returns the
    argument; the result here is the value of the object returned. *)
Definition case_record (avro_schema_dict : json) : result json :=
  case_record_body case_item avro_schema_dict.

End CaseTransformer.

(** One iteration of the loop of [case_item] in the shape of the source: the
    new value stored under [key], and the new item. *)
Section CaseLoop.

Variable casefy : casefy_api.
Variable case_type : string.

Definition case_value (case_func : string -> string) (key : string) (value : json)
  : result json :=
  if String.eqb key "name" then apply_case casefy case_type case_func value
  else
    match value with
    | JDict d' =>
        if dict_has "name" d' then case_record casefy case_type value else Ok value
    | JList elems =>
        elems' <-
          mapM (fun element =>
                  match element with
                  | JDict _ => case_record casefy case_type element
                  | _ => Ok element
                  end) elems ;;
        Ok (JList elems')
    | _ => Ok value
    end.

Definition case_entry (case_func : string -> string) (kv : string * json)
  : result (string * json) :=
  value' <- case_value case_func (fst kv) (snd kv) ;; Ok (fst kv, value').

End CaseLoop.

(** A dict whose [fields] entry, when it has one that is true, can be
    iterated over: the schema generator stores a list there. *)
Definition fields_iterable (d : dict json) : bool :=
  match dict_get "fields" d with
  | Some fields => negb (truthy fields) || is_ok (py_iter fields)
  | None => true
  end.

(** The number of constructors of a value: the measure for inductions that
    follow [case_item] and [case_record] into lists and dicts. *)
Fixpoint size (v : json) : nat :=
  match v with
  | JList l => S (list_sum (map size l))
  | JDict d => S (list_sum (map (fun kv => size (snd kv)) d))
  | _ => 1
  end.

(** Two values of the same outline: dicts with the same keys, lists of the
    same length, or the same scalar. *)
Definition same_outline (v v' : json) : Prop :=
  match v with
  | JDict d => exists d', v' = JDict d' /\ dict_keys d' = dict_keys d
  | JList l => exists l', v' = JList l' /\ length l' = length l
  | _ => v' = v
  end.

(** ** dacite_config.py: type hooks *)

Record date : Type := { year : Z; month : Z; day : Z }.

Record time : Type := { hour : Z; minute : Z; second : Z; microsecond : Z }.

(** [tzinfo] is the UTC offset in seconds of an aware datetime. *)
Record datetime : Type := { dt_date : date; dt_time : time; tzinfo : option Z }.

(** A UUID is its 128-bit integer. *)
Record UUID : Type := { uuid_int : N }.

(** The values the hooks receive and return.  [PInt] and [PNone] stand for
    the values that are neither text nor of a hook's native type. *)
Inductive pyvalue : Type :=
| PStr (s : string)
| PBytes (b : list Byte.byte)
| PDatetime (d : datetime)
| PDate (d : date)
| PTime (t : time)
| PUUID (u : UUID)
| PInt (n : Z)
| PNone.

(** What the module takes from libraries: [dateutil.parser.parse] and the
    constructor [uuid.UUID], on text, with the exception a failing call
    raises; and the names of the fields the installed [dacite.Config] has
    besides those this code sets or reads by default (dacite 1.9 has
    [convert_key]).  The module is modelled over any such library. *)
Record parsers : Type := {
  parser_parse : string -> result datetime;
  uuid_UUID : string -> result UUID;
  Config_more_fields : list string
}.

(** [except (ValueError, TypeError)] *)
Definition value_or_type_error (e : exn) : bool :=
  match e with
  | ValueError _ | TypeError => true
  | _ => false
  end.

(** [try: body  except classes as e: handler]: an exception of another class
    leaves the statement as it is. *)
Definition try_except {A : Type} (body : result A) (classes : exn -> bool)
    (handler : exn -> result A) : result A :=
  match body with
  | Ok a => Ok a
  | Err e => if classes e then handler e else Err e
  end.

Section TypeHooks.

Variable lib : parsers.

Definition parse_datetime (value : pyvalue) : result pyvalue :=
  match value with
  | PStr s =>
      try_except
        (dt <- parser_parse lib s ;; Ok (PDatetime dt))
        value_or_type_error
        (fun _ => Err (ValueError ("Invalid datetime format: " ++ s)))
  | _ => Ok value
  end.

Definition parse_date (value : pyvalue) : result pyvalue :=
  match value with
  | PStr s =>
      try_except
        (dt <- parser_parse lib s ;; Ok (PDate (dt_date dt)))
        value_or_type_error
        (fun _ => Err (ValueError ("Invalid date format: " ++ s)))
  | _ => Ok value
  end.

Definition parse_time (value : pyvalue) : result pyvalue :=
  match value with
  | PStr s =>
      try_except
        (dt <- parser_parse lib s ;; Ok (PTime (dt_time dt)))
        value_or_type_error
        (fun _ => Err (ValueError ("Invalid time format: " ++ s)))
  | _ => Ok value
  end.

(** [value.encode()]: a string is kept as its UTF-8 bytes. *)
Definition parse_bytes (value : pyvalue) : result pyvalue :=
  match value with
  | PStr s => Ok (PBytes (list_byte_of_string s))
  | _ => Ok value
  end.

Definition parse_uuid (value : pyvalue) : result pyvalue :=
  match value with
  | PStr s =>
      try_except
        (u <- uuid_UUID lib s ;; Ok (PUUID u))
        value_or_type_error
        (fun _ => Err (ValueError ("Invalid UUID format: " ++ s)))
  | _ => Ok value
  end.

End TypeHooks.

(** ** dacite_config.py: the configuration *)

(** The types that key the hook table and fill the cast list. *)
Inductive pytype : Type :=
| T_datetime
| T_date
| T_time
| T_bytes
| T_UUID
| T_typing_Tuple
| T_tuple
| T_Enum
| T_class (name : string).

Definition hook : Type := pyvalue -> result pyvalue.

(** The values found in a configuration dict.  A dataclass does not check
    the types of its arguments, so a key may hold any of them. *)
Inductive cfg_value : Type :=
| CBool (b : bool)
| CNone
| CTypeList (l : list pytype)
| CTypeTuple (l : list pytype)
| CHooks (h : list (pytype * hook))
| CRefs (m : dict pytype).

(** [base.update(other)] *)
Definition dict_update {V : Type} (base other : dict V) : dict V :=
  fold_left (fun acc kv => dict_set (fst kv) (snd kv) acc) other base.

(** [dacite.Config], a dataclass of the dacite package (not part of this code
    base): the fields every version has, with their defaults.  The value of
    a field of a later version is not read by this code and is not kept. *)
Record Config : Type := {
  type_hooks : cfg_value;
  cast : cfg_value;
  forward_references : cfg_value;
  check_types : cfg_value;
  strict : cfg_value;
  strict_unions_match : cfg_value
}.

Definition Config_fields : list string :=
  [ "type_hooks"; "cast"; "forward_references"; "check_types"; "strict";
    "strict_unions_match" ].

Definition kwarg (key : string) (default : cfg_value) (kwargs : dict cfg_value)
  : cfg_value :=
  match dict_get key kwargs with
  | Some v => v
  | None => default
  end.

(** The keywords the constructor of the installed [Config] accepts. *)
Definition Config_keywords (lib : parsers) : list string :=
  Config_fields ++ Config_more_fields lib.

(** The constructor of [Config] called with the items of [kwargs] as keyword
    arguments: a keyword that is not a field is a [TypeError]. *)
Definition Config_init (lib : parsers) (kwargs : dict cfg_value) : result Config :=
  if forallb (fun k => existsb (String.eqb k) (Config_keywords lib))
       (dict_keys kwargs)
  then
    Ok {| type_hooks := kwarg "type_hooks" (CHooks []) kwargs;
          cast := kwarg "cast" (CTypeList []) kwargs;
          forward_references := kwarg "forward_references" CNone kwargs;
          check_types := kwarg "check_types" (CBool true) kwargs;
          strict := kwarg "strict" (CBool false) kwargs;
          strict_unions_match := kwarg "strict_unions_match" (CBool false) kwargs |}
  else Err TypeError.

(** [obj.extend(more)]: only a list has the method. *)
Definition extend (obj : cfg_value) (more : list pytype) : result cfg_value :=
  match obj with
  | CTypeList l => Ok (CTypeList (l ++ more))
  | _ => Err AttributeError
  end.

Definition set_cast (config : Config) (value : cfg_value) : Config :=
  {| type_hooks := type_hooks config;
     cast := value;
     forward_references := forward_references config;
     check_types := check_types config;
     strict := strict config;
     strict_unions_match := strict_unions_match config |}.

(** Modelled from the spec: the class [AvroModel] of main.py, which is not
    among the sources.  Of a model, [generate_dacite_config] uses the outcome
    of [model.generate_schema()], the name of [model._klass], and the
    attribute [dacite_config] of [model._metadata] once the schema is
    generated ([None] when there is none). *)
Record AvroModel : Type := {
  klass_name : string;
  generate_schema : result unit;
  dacite_user_config : option (dict cfg_value)
}.

(** The cast rules added whatever the user configuration says. *)
Definition enforced_casts : list pytype := [T_typing_Tuple; T_tuple; T_Enum].

Section DaciteConfig.

Variable lib : parsers.

Definition default_dacite_config (model : AvroModel) : dict cfg_value :=
  [ ("check_types", CBool false);
    ("cast", CTypeList []);
    ("forward_references", CRefs [(klass_name model, T_class (klass_name model))]);
    ("type_hooks",
     CHooks [ (T_datetime, parse_datetime lib);
              (T_date, parse_date lib);
              (T_time, parse_time lib);
              (T_bytes, parse_bytes);
              (T_UUID, parse_uuid lib) ]) ].

(** The dict passed to [Config]: the defaults, updated with the user
    configuration when there is one and it is not empty. *)
Definition merged_dacite_config (model : AvroModel) : dict cfg_value :=
  match dacite_user_config model with
  | Some user =>
      match user with
      | [] => default_dacite_config model
      | _ => dict_update (default_dacite_config model) user
      end
  | None => default_dacite_config model
  end.

Definition generate_dacite_config (model : AvroModel) : result Config :=
  _ <- generate_schema model ;;
  config <- Config_init lib (merged_dacite_config model) ;;
  cast' <- extend (cast config) enforced_casts ;;
  Ok (set_cast config cast').

End DaciteConfig.

(** The user configuration of a model, empty when it has none. *)
Definition user_overrides (model : AvroModel) : dict cfg_value :=
  match dacite_user_config model with
  | Some user => user
  | None => []
  end.

(** A user configuration that [Config] accepts: a dict (its keys are pairwise
    distinct) whose keys are fields of [Config] and whose [cast], if it has
    one, is a list. *)
Definition valid_override (user : dict cfg_value) : Prop :=
  NoDup (dict_keys user) /\
  (forall key, In key (dict_keys user) -> In key Config_fields) /\
  (forall v, dict_get "cast" user = Some v -> exists l, v = CTypeList l).

(** The cast list a user configuration asks for. *)
Definition user_casts (user : dict cfg_value) : list pytype :=
  match dict_get "cast" user with
  | Some (CTypeList l) => l
  | _ => []
  end.

(** ** Reference implementations of the library functions

    Used to run the modelled code on concrete inputs.  The general theorems
    do not depend on them. *)

Module AsciiCase.

(** The case functions on ASCII identifiers.  Words are split at every
    character that is not a letter or a digit, and before an upper-case
    letter that follows a lower-case letter or a digit. *)

Definition between (lo hi : nat) (c : ascii) : bool :=
  let n := nat_of_ascii c in Nat.leb lo n && Nat.leb n hi.

Definition is_upper : ascii -> bool := between 65 90.
Definition is_lower : ascii -> bool := between 97 122.
Definition is_digit : ascii -> bool := between 48 57.
Definition is_alnum (c : ascii) : bool := is_upper c || is_lower c || is_digit c.

(** The ASCII characters [str.strip] removes. *)
Definition is_space (c : ascii) : bool :=
  between 9 13 c || between 28 32 c.

Definition to_lower (c : ascii) : ascii :=
  if is_upper c then ascii_of_nat (nat_of_ascii c + 32) else c.

Definition to_upper (c : ascii) : ascii :=
  if is_lower c then ascii_of_nat (nat_of_ascii c - 32) else c.

Fixpoint map_chars (f : ascii -> ascii) (s : string) : string :=
  match s with
  | EmptyString => EmptyString
  | String c s' => String (f c) (map_chars f s')
  end.

Definition lower : string -> string := map_chars to_lower.
Definition upper : string -> string := map_chars to_upper.

Definition capital (s : string) : string :=
  match s with
  | EmptyString => EmptyString
  | String c s' => String (to_upper c) s'
  end.

Fixpoint filter_chars (p : ascii -> bool) (s : string) : string :=
  match s with
  | EmptyString => EmptyString
  | String c s' => if p c then String c (filter_chars p s') else filter_chars p s'
  end.

Fixpoint lstrip (s : string) : string :=
  match s with
  | EmptyString => EmptyString
  | String c s' => if is_space c then lstrip s' else s
  end.

Fixpoint rstrip (s : string) : string :=
  match s with
  | EmptyString => EmptyString
  | String c s' =>
      match rstrip s' with
      | EmptyString => if is_space c then EmptyString else String c EmptyString
      | r => String c r
      end
  end.

Definition strip (s : string) : string := rstrip (lstrip s).

Definition flush (cur : list ascii) : list string :=
  match cur with
  | [] => []
  | _ => [string_of_list_ascii (rev cur)]
  end.

(** [cur] is the word being read, last character first; [after_low] tells
    whether the previous character was a lower-case letter or a digit. *)
Fixpoint split_words (cur : list ascii) (after_low : bool) (l : list ascii)
  : list string :=
  match l with
  | [] => flush cur
  | c :: l' =>
      if is_alnum c then
        if is_upper c && after_low then flush cur ++ split_words [c] false l'
        else split_words (c :: cur) (is_lower c || is_digit c) l'
      else flush cur ++ split_words [] false l'
  end.

Definition words (s : string) : list string :=
  split_words [] false (list_ascii_of_string s).

Definition separator (s sep : string) : string :=
  String.concat sep (map lower (words s)).

Definition snake (s : string) : string := separator s "_".
Definition kebab (s : string) : string := separator s "-".

Definition pascal (s : string) : string :=
  String.concat "" (map (fun w => capital (lower w)) (words s)).

Definition camel (s : string) : string :=
  match words s with
  | [] => ""
  | w :: ws => String.concat "" (lower w :: map (fun x => capital (lower x)) ws)
  end.

Definition api : casefy_api :=
  {| camelcase := camel;
     capitalcase := capital;
     constcase := fun s => upper (snake s);
     lowercase := lower;
     pascalcase := pascal;
     separatorcase := separator;
     snakecase := snake;
     kebabcase := kebab;
     upperkebabcase := fun s => upper (kebab s);
     str_strip := strip;
     uppercase := upper;
     alphanumcase := filter_chars is_alnum;
     non_string_error :=
       fun case_type _ =>
         if String.eqb case_type "lowercase" || String.eqb case_type "uppercase"
         then AttributeError else TypeError |}.

End AsciiCase.

Module FixedFormat.

(** Parsers of one text format each: a date and time written
    [YYYY-MM-DD hh:mm:ss], and a UUID written as 32 hexadecimal digits. *)

Definition digit (c : ascii) : option Z :=
  if AsciiCase.is_digit c then Some (Z.of_nat (nat_of_ascii c - 48)) else None.

Fixpoint number (acc : Z) (l : list ascii) : option Z :=
  match l with
  | [] => Some acc
  | c :: l' =>
      match digit c with
      | Some n => number (10 * acc + n) l'
      | None => None
      end
  end.

Definition field (from len : nat) (l : list ascii) : option Z :=
  number 0 (firstn len (skipn from l)).

Definition separators_ok (l : list ascii) : bool :=
  match skipn 4 l with
  | "-"%char :: _ :: _ :: "-"%char :: _ :: _ :: " "%char :: _ :: _ ::
    ":"%char :: _ :: _ :: ":"%char :: _ :: _ :: [] => true
  | _ => false
  end.

Definition read_datetime (s : string) : option datetime :=
  let l := list_ascii_of_string s in
  if separators_ok l then
    match field 0 4 l, field 5 2 l, field 8 2 l,
          field 11 2 l, field 14 2 l, field 17 2 l with
    | Some y, Some mo, Some d, Some h, Some mi, Some se =>
        Some {| dt_date := {| year := y; month := mo; day := d |};
                dt_time := {| hour := h; minute := mi; second := se;
                              microsecond := 0 |};
                tzinfo := None |}
    | _, _, _, _, _, _ => None
    end
  else None.

(** The largest C [int]. *)
Definition INT_MAX : Z := 2147483647.

(** As [dateutil.parser.parse] does, a text that is one decimal number
    beyond the range of a C [int] is an [OverflowError] (the number is
    tried as a year); any other text that is not of the format is a
    [ValueError]. *)
Definition parse (s : string) : result datetime :=
  match read_datetime s with
  | Some dt => Ok dt
  | None =>
      match number 0 (list_ascii_of_string s) with
      | Some n =>
          if Z.ltb INT_MAX n then Err OverflowError
          else Err (ValueError ("Unknown string format: " ++ s))
      | None => Err (ValueError ("Unknown string format: " ++ s))
      end
  end.

Definition hex_digit (c : ascii) : option N :=
  let n := nat_of_ascii c in
  if AsciiCase.is_digit c then Some (N.of_nat (n - 48))
  else if AsciiCase.between 97 102 c then Some (N.of_nat (n - 87))
  else if AsciiCase.between 65 70 c then Some (N.of_nat (n - 55))
  else None.

Fixpoint hex_number (acc : N) (l : list ascii) : option N :=
  match l with
  | [] => Some acc
  | c :: l' =>
      match hex_digit c with
      | Some n => hex_number (16 * acc + n) l'
      | None => None
      end
  end.

Definition read_uuid (s : string) : option UUID :=
  let l := list_ascii_of_string s in
  if Nat.eqb (List.length l) 32 then
    match hex_number 0 l with
    | Some n => Some {| uuid_int := n |}
    | None => None
    end
  else None.

Definition uuid (s : string) : result UUID :=
  match read_uuid s with
  | Some u => Ok u
  | None => Err (ValueError "badly formed hexadecimal UUID string")
  end.

(** The fields of [Config] are those of dacite 1.9. *)
Definition lib : parsers :=
  {| parser_parse := parse;
     uuid_UUID := uuid;
     Config_more_fields := ["convert_key"] |}.

End FixedFormat.

(** ** Example documents and models *)

(** A record named [PersonRecord] with one field named [fullName]. *)
Definition person_record : json :=
  JDict [ ("type", JStr "record");
          ("name", JStr "PersonRecord");
          ("fields", JList [ JDict [ ("name", JStr "fullName");
                                     ("type", JStr "string") ] ]) ].

(** An enum definition. *)
Definition color_enum : dict json :=
  [ ("type", JStr "enum");
    ("name", JStr "FavColor");
    ("symbols", JList [JStr "Blue"; JStr "darkGreen"]) ].

(** A record with one field whose type is the enum above. *)
Definition palette_record : json :=
  JDict [ ("type", JStr "record");
          ("name", JStr "Palette");
          ("fields", JList [ JDict [ ("name", JStr "favColor");
                                     ("type", JDict color_enum) ] ]) ].

(** A model whose user configuration turns type checking on, and one whose
    user configuration replaces the cast list. *)
Definition checked_model : AvroModel :=
  {| klass_name := "User";
     generate_schema := Ok tt;
     dacite_user_config := Some [("check_types", CBool true)] |}.

Definition casting_model : AvroModel :=
  {| klass_name := "User";
     generate_schema := Ok tt;
     dacite_user_config := Some [("cast", CTypeList [T_class "Color"])] |}.

Definition plain_model : AvroModel :=
  {| klass_name := "User";
     generate_schema := Ok tt;
     dacite_user_config := None |}.

(** A record with one field of type string. *)
Definition one_field_record (record_name field_name : string) : json :=
  JDict [ ("type", JStr "record");
          ("name", JStr record_name);
          ("fields", JList [ JDict [ ("name", JStr field_name);
                                     ("type", JStr "string") ] ]) ].

(** ** Predicates on documents *)

Definition is_dict (v : json) : bool :=
  match v with JDict _ => true | _ => false end.

Definition is_str (v : json) : bool :=
  match v with JStr _ => true | _ => false end.

(** The values the loop of [case_item] has nothing to rename in, under a key
    other than [name]: a scalar, a dict that has no [name] key or is an enum
    definition, a list whose dicts are all enum definitions. *)
Definition left_alone (v : json) : bool :=
  match v with
  | JDict d => negb (dict_has "name" d) || is_enum d
  | JList l =>
      forallb (fun e => match e with JDict d => is_enum d | _ => true end) l
  | _ => true
  end.

(** Every string stored under a [name] key, at any depth. *)
Fixpoint names_of (v : json) : list string :=
  match v with
  | JDict d =>
      flat_map (fun kv =>
                  (if String.eqb (fst kv) "name"
                   then match snd kv with JStr s => [s] | _ => [] end
                   else [])
                  ++ names_of (snd kv)) d
  | JList l => flat_map names_of l
  | _ => []
  end.

(** What the schema generator stores under [fields]: a list of dicts (or
    nothing that is true). *)
Definition fields_well_formed (v : json) : bool :=
  negb (truthy v) ||
  match v with
  | JList l => forallb is_dict l
  | _ => false
  end.

(** A document in which, at any depth, every [name] is a string and every
    [fields] is a list of dicts. *)
Fixpoint well_formed (v : json) : bool :=
  match v with
  | JDict d =>
      forallb (fun kv =>
                 (if String.eqb (fst kv) "name" then is_str (snd kv) else true)
                 && (if String.eqb (fst kv) "fields"
                     then fields_well_formed (snd kv) else true)
                 && well_formed (snd kv)) d
  | JList l => forallb well_formed l
  | _ => true
  end.

(** A record with two fields. *)
Definition two_field_record (record_name a b : string) (ta tb : json) : json :=
  JDict [ ("type", JStr "record");
          ("name", JStr record_name);
          ("fields", JList [ JDict [ ("name", JStr a); ("type", ta) ];
                             JDict [ ("name", JStr b); ("type", tb) ] ]) ].

(** The five default hooks, as [generate_dacite_config] lists them. *)
Definition default_type_hooks (lib : parsers) : cfg_value :=
  CHooks [ (T_datetime, parse_datetime lib);
           (T_date, parse_date lib);
           (T_time, parse_time lib);
           (T_bytes, parse_bytes);
           (T_UUID, parse_uuid lib) ].

(** A model whose user configuration gives one hook of its own and turns
    strict mode on. *)
Definition hooked_model : AvroModel :=
  {| klass_name := "User";
     generate_schema := Ok tt;
     dacite_user_config :=
       Some [ ("type_hooks", CHooks [(T_class "Color", fun v => Ok v)]);
              ("strict", CBool true) ] |}.

(** The record of [palette_record] with its names in lower case. *)
Definition palette_record_lower : json :=
  JDict [ ("type", JStr "record");
          ("name", JStr "palette");
          ("fields", JList [ JDict [ ("name", JStr "favcolor");
                                     ("type", JDict [ ("type", JStr "enum");
                                                      ("name", JStr "color");
                                                      ("symbols",
                                                       JList [JStr "Blue"]) ]) ] ]) ].

(** ** Lemmas on results, lists and dicts *)

Lemma bind_Ok_inv {A B : Type} (r : result A) (k : A -> result B) (b : B) :
  bind r k = Ok b -> exists a, r = Ok a /\ k a = Ok b.
Proof.
  destruct r as [a|e]; cbn; [eauto | discriminate].
Qed.

Lemma mapM_Forall2 {A B : Type} (f : A -> result B) (l : list A) (l' : list B) :
  mapM f l = Ok l' -> Forall2 (fun x y => f x = Ok y) l l'.
Proof.
  revert l'. induction l as [|x l IH]; intros l' H; cbn in H.
  - injection H as <-. constructor.
  - apply bind_Ok_inv in H as (y & Hy & H).
    apply bind_Ok_inv in H as (ys & Hys & H).
    injection H as <-. constructor; auto.
Qed.

Lemma Forall2_mapM {A B : Type} (f : A -> result B) (l : list A) (l' : list B) :
  Forall2 (fun x y => f x = Ok y) l l' -> mapM f l = Ok l'.
Proof.
  induction 1 as [|x y l l' Hxy _ IH]; cbn; [reflexivity|].
  rewrite Hxy; cbn. rewrite IH. reflexivity.
Qed.

Lemma mapM_length {A B : Type} (f : A -> result B) (l : list A) (l' : list B) :
  mapM f l = Ok l' -> length l' = length l.
Proof.
  intros H. apply mapM_Forall2 in H. symmetry. eapply Forall2_length; eauto.
Qed.

(** A traversal whose function fixes its own results fixes its result. *)
Lemma mapM_fixed {A : Type} (f : A -> result A) (l l' : list A) :
  (forall x y, In x l -> f x = Ok y -> f y = Ok y) ->
  mapM f l = Ok l' -> mapM f l' = Ok l'.
Proof.
  intros Hf H. apply mapM_Forall2 in H. apply Forall2_mapM.
  induction H as [|x y l l' Hxy _ IH]; constructor.
  - apply (Hf x); [left; reflexivity | assumption].
  - apply IH. intros x0 y0 Hin. apply Hf. right; assumption.
Qed.

Lemma dict_get_set_same {V : Type} (key : string) (v : V) (d : dict V) :
  dict_get key (dict_set key v d) = Some v.
Proof.
  induction d as [|[k x] d IH]; cbn.
  - rewrite String.eqb_refl. reflexivity.
  - destruct (String.eqb k key) eqn:E; cbn; rewrite E; auto.
Qed.

Lemma dict_get_set_other {V : Type} (key key' : string) (v : V) (d : dict V) :
  key' <> key -> dict_get key' (dict_set key v d) = dict_get key' d.
Proof.
  intros Hne. induction d as [|[k x] d IH]; cbn.
  - apply String.eqb_neq in Hne. rewrite String.eqb_sym, Hne. reflexivity.
  - destruct (String.eqb k key) eqn:E; cbn.
    + apply String.eqb_eq in E; subst k.
      apply String.eqb_neq in Hne. rewrite String.eqb_sym, Hne. reflexivity.
    + rewrite IH. reflexivity.
Qed.

Lemma dict_set_set {V : Type} (key : string) (v : V) (d : dict V) :
  dict_set key v (dict_set key v d) = dict_set key v d.
Proof.
  induction d as [|[k x] d IH]; cbn.
  - rewrite String.eqb_refl. reflexivity.
  - destruct (String.eqb k key) eqn:E; cbn; rewrite E; [reflexivity|].
    rewrite IH. reflexivity.
Qed.

Lemma dict_keys_set {V : Type} (key : string) (v x : V) (d : dict V) :
  dict_get key d = Some x -> dict_keys (dict_set key v d) = dict_keys d.
Proof.
  induction d as [|[k y] d IH]; cbn; [discriminate|].
  destruct (String.eqb k key) eqn:E; cbn; [reflexivity|].
  intros H. unfold dict_keys in IH. rewrite IH; auto.
Qed.

Lemma dict_has_keys {V W : Type} (key : string) (d : dict V) (d' : dict W) :
  dict_keys d' = dict_keys d -> dict_has key d' = dict_has key d.
Proof.
  unfold dict_has. revert d'.
  induction d as [|[k x] d IH]; intros [|[k' x'] d'] H; cbn in H;
    try discriminate; [reflexivity|].
  injection H as -> H. cbn. destruct (String.eqb k key); [reflexivity|].
  apply IH, H.
Qed.

Lemma dict_get_None_keys {V : Type} (key : string) (d : dict V) :
  dict_get key d = None <-> ~ In key (dict_keys d).
Proof.
  induction d as [|[k x] d IH]; cbn; [tauto|].
  destruct (String.eqb_spec k key) as [->|Hne].
  - split; [discriminate | intros H; exfalso; apply H; left; reflexivity].
  - rewrite IH. tauto.
Qed.

Lemma case_tokens_keys (casefy : casefy_api) :
  dict_keys (CASE_TO_FUNC casefy) = case_tokens.
Proof. reflexivity. Qed.

(** A token is supported exactly when [CASE_TO_FUNC] has it as a key. *)
Lemma lookup_case_unsupported (casefy : casefy_api) (case_type : string) :
  ~ In case_type case_tokens ->
  lookup_case casefy case_type =
  Err (ValueError (unsupported_case_message case_type case_tokens)).
Proof.
  intros H. unfold lookup_case.
  rewrite <- (case_tokens_keys casefy) in H.
  apply dict_get_None_keys in H. rewrite H. reflexivity.
Qed.

Lemma lookup_case_supported (casefy : casefy_api) (case_type : string) :
  In case_type case_tokens ->
  exists case_func,
    dict_get case_type (CASE_TO_FUNC casefy) = Some case_func /\
    lookup_case casefy case_type = Ok case_func.
Proof.
  intros H. unfold lookup_case.
  destruct (dict_get case_type (CASE_TO_FUNC casefy)) as [f|] eqn:E; [eauto|].
  apply dict_get_None_keys in E. rewrite case_tokens_keys in E. contradiction.
Qed.

Lemma is_enum_true (d : dict json) :
  is_enum d = true <-> dict_get "type" d = Some (JStr "enum").
Proof.
  unfold is_enum, ENUM.
  destruct (dict_get "type" d) as [[| | | |t| |]|]; try (split; discriminate).
  destruct (String.eqb_spec t "enum") as [->|Hne]; split; try reflexivity;
    try discriminate.
  intros H. injection H as ->. contradiction.
Qed.


(** ** The transformer, equation by equation

    The recursive definitions above are arranged for structural recursion.
    The equations below give them back in the shape of the source: the loop of
    [case_item] as a traversal of [item.items()], and [case_record] with its
    two [get] calls. *)

Section CaseEquations.

Variable casefy : casefy_api.
Variable case_type : string.

Lemma case_item_eq (item : json) :
  case_item casefy case_type item =
  (case_func <- lookup_case casefy case_type ;;
   match item with
   | JDict kvs =>
       transformed_item <- mapM (case_entry casefy case_type case_func) kvs ;;
       Ok (JDict transformed_item)
   | _ => Err AttributeError
   end).
Proof.
  destruct item as [| | | | |l|kvs]; try reflexivity.
  cbn [case_item].
  destruct (lookup_case casefy case_type) as [case_func|e]; [|reflexivity].
  cbn [bind]. f_equal.
  induction kvs as [|[key value] kvs IH]; [reflexivity|].
  cbn [mapM]. rewrite <- IH.
  unfold case_entry, case_value, case_record.
  cbn [fst snd].
  match goal with
  | |- bind ?X _ = bind (bind ?Y _) _ => change Y with X; destruct X; reflexivity
  end.
Qed.

Lemma case_fields_eq (schema : json) (d l : dict json) :
  case_fields casefy case_type (case_item casefy case_type) schema d l =
  match dict_get "fields" l with
  | Some fields =>
      if truthy fields then
        elems <- py_iter fields ;;
        fields' <- mapM (case_item casefy case_type) elems ;;
        Ok (JDict (dict_set "fields" (JList fields') d))
      else case_item casefy case_type schema
  | None => case_item casefy case_type schema
  end.
Proof.
  induction l as [|[k v] l IH]; [reflexivity|].
  cbn [dict_get case_fields]. destruct (String.eqb k "fields"); [|exact IH].
  destruct (truthy v) eqn:Hv; [|reflexivity].
  destruct v as [| | | |s|es|m]; try reflexivity; cbn in Hv; try discriminate.
  - destruct s as [|c s]; [discriminate|].
    cbn [py_iter chars map bind mapM].
    rewrite case_item_eq.
    unfold case_item_nondict. destruct (lookup_case casefy case_type); reflexivity.
  - destruct m as [|[k0 v0] m]; [discriminate|].
    cbn [py_iter dict_keys chars map bind mapM fst].
    rewrite case_item_eq.
    unfold case_item_nondict. destruct (lookup_case casefy case_type); reflexivity.
Qed.

Lemma case_record_eq (d : dict json) :
  case_record casefy case_type (JDict d) =
  if is_enum d then Ok (JDict d)
  else
    match dict_get "fields" d with
    | Some fields =>
        if truthy fields then
          elems <- py_iter fields ;;
          fields' <- mapM (case_item casefy case_type) elems ;;
          Ok (JDict (dict_set "fields" (JList fields') d))
        else case_item casefy case_type (JDict d)
    | None => case_item casefy case_type (JDict d)
    end.
Proof.
  unfold case_record, case_record_body.
  destruct (is_enum d); [reflexivity|].
  apply case_fields_eq.
Qed.

(** [case_record] on anything but a dict: [.get] does not exist. *)
Lemma case_record_nondict (v : json) :
  (forall d, v <> JDict d) -> case_record casefy case_type v = Err AttributeError.
Proof.
  intros H. destruct v; try reflexivity. exfalso; exact (H d eq_refl).
Qed.

End CaseEquations.

(** ** The case transformer: enum definitions and unsupported tokens *)

Ltac in_tokens := cbn; repeat (try (left; reflexivity); right).

Ltac not_in_tokens :=
  cbn; intros Hin; repeat destruct Hin as [Hin|Hin]; try discriminate; exact Hin.

(** C1. A document whose top-level [type] is ["enum"] is returned by
    [case_record] as it is, for each of the supported case styles: the
    result is the input, with its name and its symbols. *)
Theorem enum_document_unmodified (casefy : casefy_api) (case_type : string)
    (d : dict json) :
  In case_type case_tokens ->
  dict_get "type" d = Some (JStr "enum") ->
  case_record casefy case_type (JDict d) = Ok (JDict d).
Proof.
  intros _ Henum. rewrite case_record_eq.
  apply is_enum_true in Henum. rewrite Henum. reflexivity.
Qed.

Lemma enum_document_unmodified_witness :
  In "snakecase" case_tokens /\
  dict_get "type" color_enum = Some (JStr "enum") /\
  case_record AsciiCase.api "snakecase" (JDict color_enum) = Ok (JDict color_enum).
Proof.
  split; [in_tokens|]. split; [reflexivity|].
  apply (enum_document_unmodified AsciiCase.api "snakecase" color_enum);
    [in_tokens | reflexivity].
Defined.

(** C10. With a token that is not supported, [case_record] still returns an
    enum document as it is: the token is only looked up by [case_item],
    which fails on the same document, and the enum branch returns before
    [case_item] is called. *)
Theorem enum_document_skips_token_check (casefy : casefy_api)
    (case_type : string) (d : dict json) :
  ~ In case_type case_tokens ->
  dict_get "type" d = Some (JStr "enum") ->
  case_record casefy case_type (JDict d) = Ok (JDict d) /\
  case_item casefy case_type (JDict d) =
  Err (ValueError (unsupported_case_message case_type case_tokens)).
Proof.
  intros Hbad Henum. split.
  - rewrite case_record_eq. apply is_enum_true in Henum. rewrite Henum. reflexivity.
  - rewrite case_item_eq, lookup_case_unsupported by assumption. reflexivity.
Qed.

Lemma enum_document_skips_token_check_witness :
  ~ In "SCREAMING" case_tokens /\
  case_record AsciiCase.api "SCREAMING" (JDict color_enum) = Ok (JDict color_enum) /\
  case_item AsciiCase.api "SCREAMING" (JDict color_enum) =
  Err (ValueError (unsupported_case_message "SCREAMING" case_tokens)).
Proof.
  split; [not_in_tokens|].
  apply (enum_document_skips_token_check AsciiCase.api "SCREAMING" color_enum);
    [not_in_tokens | reflexivity].
Defined.

(** What iterating over a true value yields first. *)
Lemma py_iter_truthy (v : json) (elems : list json) :
  truthy v = true -> py_iter v = Ok elems ->
  exists first rest, elems = first :: rest.
Proof.
  destruct v as [| | | |s|l|d]; cbn; try discriminate.
  - destruct s; cbn; [discriminate|]. intros _ H; injection H as <-; eauto.
  - destruct l; [discriminate|]. intros _ H; injection H as <-; eauto.
  - destruct d; [discriminate|]. intros _ H; injection H as <-. cbn; eauto.
Qed.

(** C3. With a token outside the twelve supported ones, [case_record] on a
    document that is not an enum definition raises the error for an
    unsupported case, whose message names the token and lists the twelve
    valid tokens; no document is returned. *)
Theorem unsupported_case_rejected (casefy : casefy_api) (case_type : string)
    (d : dict json) :
  ~ In case_type case_tokens ->
  dict_get "type" d <> Some (JStr "enum") ->
  fields_iterable d = true ->
  case_record casefy case_type (JDict d) =
  Err (ValueError
         ("Unsupported case type '" ++ case_type ++
          "'. Valid types are: ['camelcase', 'capitalcase', 'constcase', 'lowercase', 'pascalcase', 'pathcase', 'snakecase', 'spinalcase', 'upperkebabcase', 'trimcase', 'uppercase', 'alphanumcase']")).
Proof.
  intros Hbad Hnot Hiter.
  assert (Hitem : forall v, case_item casefy case_type v =
                            Err (ValueError (unsupported_case_message case_type case_tokens))).
  { intros v. rewrite case_item_eq, lookup_case_unsupported by assumption.
    reflexivity. }
  rewrite case_record_eq.
  destruct (is_enum d) eqn:E; [apply is_enum_true in E; contradiction|].
  unfold fields_iterable in Hiter.
  destruct (dict_get "fields" d) as [fields|]; [|apply Hitem].
  destruct (truthy fields) eqn:Ht; [|apply Hitem].
  cbn in Hiter. destruct (py_iter fields) as [elems|e] eqn:Hi; [|discriminate].
  destruct (py_iter_truthy _ _ Ht Hi) as (first & rest & ->).
  cbn. rewrite Hitem. reflexivity.
Qed.

Lemma unsupported_case_rejected_witness :
  exists msg,
    case_record AsciiCase.api "SCREAMING" person_record = Err (ValueError msg).
Proof.
  eexists.
  apply (unsupported_case_rejected AsciiCase.api "SCREAMING"
           [ ("type", JStr "record"); ("name", JStr "PersonRecord");
             ("fields", JList [ JDict [ ("name", JStr "fullName");
                                        ("type", JStr "string") ] ]) ]);
    [not_in_tokens | discriminate | reflexivity].
Defined.

(** ** The case transformer: what is renamed *)

(** The loop of [case_item] keeps the keys and gives each the value computed
    by [case_value]. *)
Lemma case_entries_keys (casefy : casefy_api) (case_type : string)
    (case_func : string -> string) (d d' : dict json) :
  mapM (case_entry casefy case_type case_func) d = Ok d' ->
  dict_keys d' = dict_keys d.
Proof.
  intros H. apply mapM_Forall2 in H.
  induction H as [|[k v] [k' v'] d d' Hkv _ IH]; [reflexivity|].
  unfold case_entry in Hkv. apply bind_Ok_inv in Hkv as (x & _ & Hx).
  injection Hx as <- _. cbn. f_equal. exact IH.
Qed.

Lemma case_entries_get (casefy : casefy_api) (case_type : string)
    (case_func : string -> string) (d d' : dict json) (key : string) (v : json) :
  mapM (case_entry casefy case_type case_func) d = Ok d' ->
  dict_get key d = Some v ->
  exists v', dict_get key d' = Some v' /\
             case_value casefy case_type case_func key v = Ok v'.
Proof.
  intros H. apply mapM_Forall2 in H.
  induction H as [|[k x] [k' x'] d d' Hkv _ IH]; cbn; [discriminate|].
  unfold case_entry in Hkv. apply bind_Ok_inv in Hkv as (y & Hy & Hx).
  cbn in Hy, Hx. injection Hx as <- <-.
  destruct (String.eqb_spec k key) as [->|Hne].
  - intros Hv; injection Hv as <-. eauto.
  - exact IH.
Qed.

Lemma case_entries_get_None (casefy : casefy_api) (case_type : string)
    (case_func : string -> string) (d d' : dict json) (key : string) :
  mapM (case_entry casefy case_type case_func) d = Ok d' ->
  dict_get key d = None -> dict_get key d' = None.
Proof.
  intros H Hk. apply case_entries_keys in H.
  apply dict_get_None_keys. rewrite H. apply dict_get_None_keys, Hk.
Qed.

(** [case_item] on a dict, when it returns. *)
Lemma case_item_Ok_inv (casefy : casefy_api) (case_type : string)
    (d : dict json) (v' : json) :
  case_item casefy case_type (JDict d) = Ok v' ->
  exists case_func d',
    lookup_case casefy case_type = Ok case_func /\
    mapM (case_entry casefy case_type case_func) d = Ok d' /\
    v' = JDict d'.
Proof.
  rewrite case_item_eq. intros H.
  apply bind_Ok_inv in H as (case_func & Hf & H).
  apply bind_Ok_inv in H as (d' & Hd & H).
  injection H as <-. eauto.
Qed.

Lemma lookup_case_Ok (casefy : casefy_api) (case_type : string)
    (case_func : string -> string) :
  lookup_case casefy case_type = Ok case_func <->
  dict_get case_type (CASE_TO_FUNC casefy) = Some case_func.
Proof.
  unfold lookup_case.
  destruct (dict_get case_type (CASE_TO_FUNC casefy)); split; intros H;
    try discriminate; injection H as <-; reflexivity.
Qed.




(** C9, as the code has it.  Under [snakecase], with a case function that
    maps [fullName] to [full_name], the record named [PersonRecord] with a
    field named [fullName] becomes the same record with the field named
    [full_name]: the record keeps its name, and every other key and value
    is unchanged. *)
Theorem snakecase_person_record (casefy : casefy_api) :
  snakecase casefy "fullName" = "full_name" ->
  case_record casefy "snakecase" person_record =
  Ok (JDict [ ("type", JStr "record");
              ("name", JStr "PersonRecord");
              ("fields", JList [ JDict [ ("name", JStr "full_name");
                                         ("type", JStr "string") ] ]) ]).
Proof.
  intros H. cbn. rewrite H. reflexivity.
Qed.

Lemma snakecase_person_record_witness :
  snakecase AsciiCase.api "fullName" = "full_name" /\
  case_record AsciiCase.api "snakecase" person_record =
  Ok (JDict [ ("type", JStr "record");
              ("name", JStr "PersonRecord");
              ("fields", JList [ JDict [ ("name", JStr "full_name");
                                         ("type", JStr "string") ] ]) ]).
Proof.
  split; [reflexivity|].
  apply (snakecase_person_record AsciiCase.api). reflexivity.
Defined.

(** The claim C9 fails on the record name: [snakecase] would turn
    [PersonRecord] into [person_record], and the record is still named
    [PersonRecord] in the result. *)
Lemma snakecase_keeps_record_name :
  snakecase AsciiCase.api "PersonRecord" = "person_record" /\
  exists d',
    case_record AsciiCase.api "snakecase" person_record = Ok (JDict d') /\
    dict_get "name" d' = Some (JStr "PersonRecord") /\
    dict_get "name" d' <> Some (JStr "person_record").
Proof.
  split; [reflexivity|].
  eexists. split; [reflexivity|]. split; [reflexivity | discriminate].
Qed.

(** A record nested in a field keeps its name and has its fields renamed; a
    dict without [fields] has its [name] renamed. *)
Example nested_record_snakecase :
  case_record AsciiCase.api "snakecase"
    (JDict [ ("type", JStr "record"); ("name", JStr "Outer");
             ("fields",
              JList [ JDict [ ("name", JStr "homeAddress");
                              ("type",
                               JDict [ ("type", JStr "record");
                                       ("name", JStr "HomeAddress");
                                       ("fields",
                                        JList [ JDict [ ("name", JStr "zipCode");
                                                        ("type", JStr "string") ] ]) ]) ];
                      JDict [ ("name", JStr "nickNames");
                              ("type",
                               JDict [ ("type", JStr "array");
                                       ("items", JStr "string");
                                       ("name", JStr "nickName") ]) ] ]) ])
  = Ok (JDict [ ("type", JStr "record"); ("name", JStr "Outer");
                ("fields",
                 JList [ JDict [ ("name", JStr "home_address");
                                 ("type",
                                  JDict [ ("type", JStr "record");
                                          ("name", JStr "HomeAddress");
                                          ("fields",
                                           JList [ JDict [ ("name", JStr "zip_code");
                                                           ("type", JStr "string") ] ]) ]) ];
                         JDict [ ("name", JStr "nick_names");
                                 ("type",
                                  JDict [ ("type", JStr "array");
                                          ("items", JStr "string");
                                          ("name", JStr "nick_name") ]) ] ]) ]).
Proof. reflexivity. Qed.

(** A true [fields] that cannot be iterated over fails before any token is
    looked up. *)
Example scalar_fields_type_error :
  case_record AsciiCase.api "SCREAMING" (JDict [("fields", JInt 5)]) = Err TypeError.
Proof. reflexivity. Qed.

(** ** The case transformer: applying it twice *)

Lemma size_elem (l : list json) (x : json) : In x l -> size x < size (JList l).
Proof.
  change (size (JList l)) with (S (list_sum (map size l))).
  unfold list_sum.
  induction l as [|y l IH]; cbn [In map fold_right]; [tauto|].
  intros [->|H]; [lia | specialize (IH H); lia].
Qed.

Lemma size_value (d : dict json) (k : string) (x : json) :
  In (k, x) d -> size x < size (JDict d).
Proof.
  change (size (JDict d)) with (S (list_sum (map (fun kv => size (snd kv)) d))).
  unfold list_sum.
  induction d as [|[k' y] d IH]; cbn [In map fold_right snd]; [tauto|].
  intros [H|H]; [injection H as -> ->; lia | specialize (IH H); lia].
Qed.

Lemma same_outline_truthy (v v' : json) :
  same_outline v v' -> truthy v' = truthy v.
Proof.
  destruct v as [| | | | |l|d]; cbn; try (intros ->; reflexivity).
  - intros (l' & -> & H). destruct l, l'; cbn in *; congruence.
  - intros (d' & -> & H). destruct d, d'; cbn in *; congruence.
Qed.

Lemma same_outline_str (v v' : json) (s : string) :
  same_outline v v' -> v' = JStr s -> v = JStr s.
Proof.
  destruct v as [| | | | |l|d]; cbn; try congruence.
  - intros (l' & -> & _). discriminate.
  - intros (d' & -> & _). discriminate.
Qed.

Section Idempotence.

Variable casefy : casefy_api.
Variable case_type : string.

(** [case_record] returns a dict with the keys of its argument. *)
Lemma case_record_outline (d : dict json) (v' : json) :
  case_record casefy case_type (JDict d) = Ok v' -> same_outline (JDict d) v'.
Proof.
  rewrite case_record_eq. cbn.
  destruct (is_enum d).
  - intros H; injection H as <-. eauto.
  - assert (Hitem : case_item casefy case_type (JDict d) = Ok v' ->
                    exists d', v' = JDict d' /\ dict_keys d' = dict_keys d).
    { intros H. apply case_item_Ok_inv in H as (f & d' & _ & Hd & ->).
      apply case_entries_keys in Hd. eauto. }
    destruct (dict_get "fields" d) as [fields|] eqn:Hf; [|exact Hitem].
    destruct (truthy fields); [|exact Hitem].
    intros H. apply bind_Ok_inv in H as (elems & _ & H).
    apply bind_Ok_inv in H as (fields' & _ & H). injection H as <-.
    eexists; split; [reflexivity|]. eapply dict_keys_set; eauto.
Qed.

(** The value stored under a key other than [name] has the outline of the
    value it replaces. *)
Lemma case_value_outline (case_func : string -> string) (key : string)
    (v v' : json) :
  key <> "name" ->
  case_value casefy case_type case_func key v = Ok v' -> same_outline v v'.
Proof.
  intros Hkey. unfold case_value.
  apply String.eqb_neq in Hkey. rewrite Hkey.
  destruct v as [| | | | |l|d]; cbn; try (intros H; injection H as <-; reflexivity).
  - intros H. apply bind_Ok_inv in H as (l' & Hl & H). injection H as <-.
    apply mapM_length in Hl. eauto.
  - destruct (dict_has "name" d).
    + apply case_record_outline.
    + intros H; injection H as <-. eauto.
Qed.

Hypothesis case_func_idempotent :
  forall case_func,
    dict_get case_type (CASE_TO_FUNC casefy) = Some case_func ->
    forall x, case_func (case_func x) = case_func x.

(** One entry of the loop, given that [case_record] fixes its results on
    the values below the entry. *)
Lemma case_entry_fixed (case_func : string -> string) (kv kv' : string * json)
    (n : nat) :
  dict_get case_type (CASE_TO_FUNC casefy) = Some case_func ->
  (forall y y', size y < n -> case_record casefy case_type y = Ok y' -> case_record casefy case_type y' = Ok y') ->
  size (snd kv) < n ->
  case_entry casefy case_type case_func kv = Ok kv' ->
  case_entry casefy case_type case_func kv' = Ok kv'.
Proof.
  intros Hf IH Hsize H. destruct kv as [k x]. unfold case_entry in *.
  cbn [fst snd] in *.
  apply bind_Ok_inv in H as (x' & Hx & H). injection H as <-. cbn [fst snd].
  enough (case_value casefy case_type case_func k x' = Ok x') as ->
      by reflexivity.
  unfold case_value in *. destruct (String.eqb k "name").
  - assert (Hstr : exists s, x' = JStr (case_func s)).
    { unfold apply_case in Hx.
      destruct x; try (injection Hx as <-; eauto);
        destruct (casefy_function case_type); try discriminate;
        match type of Hx with
        | context [truthy ?v] => destruct (truthy v)
        end; try discriminate; injection Hx as <-; eauto. }
    destruct Hstr as (s & ->).
    cbn. rewrite (case_func_idempotent _ Hf). reflexivity.
  - destruct x as [| | | | |l|d]; try (injection Hx as <-; reflexivity).
    + apply bind_Ok_inv in Hx as (l' & Hl & Hx). injection Hx as <-.
      erewrite mapM_fixed; [reflexivity | | exact Hl].
      intros e e' Hin He. pose proof (size_elem _ _ Hin) as Hlt.
      destruct e as [| | | | | |m]; try (injection He as <-; reflexivity).
      destruct (case_record_outline _ _ He) as (d' & -> & _).
      apply (IH (JDict m)); [lia | exact He].
    + destruct (dict_has "name" d) eqn:Hn.
      * destruct (case_record_outline _ _ Hx) as (d' & -> & Hk).
        rewrite (dict_has_keys _ _ _ Hk), Hn.
        apply (IH (JDict d)); assumption.
      * injection Hx as <-. rewrite Hn. reflexivity.
Qed.

Lemma case_fixed_below (n : nat) (v : json) :
  size v < n ->
  (forall v', case_item casefy case_type v = Ok v' -> case_item casefy case_type v' = Ok v') /\
  (forall v', case_record casefy case_type v = Ok v' -> case_record casefy case_type v' = Ok v').
Proof.
  revert v. induction n as [|n IH]; intros v Hsize; [lia|].
  assert (Hitem : forall v', case_item casefy case_type v = Ok v' -> case_item casefy case_type v' = Ok v').
  { intros v' H.
    destruct v as [| | | | | |d];
      try (rewrite case_item_eq in H;
           destruct (lookup_case casefy case_type); discriminate).
    apply case_item_Ok_inv in H as (f & d' & Hlook & Hd & ->).
    rewrite case_item_eq, Hlook. cbn [bind].
    erewrite mapM_fixed; [reflexivity | | exact Hd].
    intros [k x] kv' Hin. apply lookup_case_Ok in Hlook.
    apply (case_entry_fixed f (k, x) kv' n Hlook).
    - intros y y' Hy. apply (IH y Hy).
    - pose proof (size_value _ _ _ Hin). cbn [snd]. lia. }
  split; [exact Hitem|].
  intros v' H.
  destruct v as [| | | | | |d]; try discriminate.
  pose proof H as Hrun. rewrite case_record_eq in H.
  destruct (is_enum d) eqn:Henum.
  { injection H as <-. exact Hrun. }
  assert (Hfalls : forall fields_falsy : 
            match dict_get "fields" d with
            | Some fields => truthy fields = false
            | None => True
            end,
            case_item casefy case_type (JDict d) = Ok v' ->
            case_record casefy case_type v' = Ok v').
  { intros Hfalsy Hi. pose proof (Hitem v' Hi) as Hfix.
    apply case_item_Ok_inv in Hi as (f & d' & Hlook & Hd & ->).
    rewrite case_record_eq.
    assert (Henum' : is_enum d' = false).
    { unfold is_enum in *.
      destruct (dict_get "type" d) as [t|] eqn:Ht.
      - destruct (case_entries_get _ _ _ _ _ _ _ Hd Ht) as (t' & Ht' & Hc).
        rewrite Ht'. apply case_value_outline in Hc; [|discriminate].
        destruct t' as [| | | |s| |]; try reflexivity.
        rewrite (same_outline_str _ _ _ Hc eq_refl) in Henum. exact Henum.
      - rewrite (case_entries_get_None _ _ _ _ _ _ Hd Ht). reflexivity. }
    rewrite Henum'.
    destruct (dict_get "fields" d) as [fields|] eqn:Hf.
    - destruct (case_entries_get _ _ _ _ _ _ _ Hd Hf) as (f' & Hf' & Hc).
      rewrite Hf'. apply case_value_outline in Hc; [|discriminate].
      rewrite (same_outline_truthy _ _ Hc), Hfalsy. exact Hfix.
    - rewrite (case_entries_get_None _ _ _ _ _ _ Hd Hf). exact Hfix. }
  destruct (dict_get "fields" d) as [fields|] eqn:Hf; [|apply Hfalls; auto].
  destruct (truthy fields) eqn:Ht; [|apply Hfalls; auto].
  apply bind_Ok_inv in H as (elems & Hiter & H).
  apply bind_Ok_inv in H as (fields' & Hmap & H). injection H as <-.
  assert (Hlist : fields = JList elems).
  { destruct fields as [| | | |s|l|m]; try discriminate.
    - exfalso. destruct s; [discriminate|]. cbn in Hiter.
      injection Hiter as <-. cbn [chars dict_keys map mapM] in Hmap.
      rewrite case_item_eq in Hmap.
      destruct (lookup_case casefy case_type); discriminate.
    - cbn in Hiter. injection Hiter as <-. reflexivity.
    - exfalso. destruct m; [discriminate|]. cbn in Hiter.
      injection Hiter as <-. cbn [chars dict_keys map mapM] in Hmap.
      rewrite case_item_eq in Hmap.
      destruct (lookup_case casefy case_type); discriminate. }
  subst fields.
  assert (Hfix : mapM (case_item casefy case_type) fields' = Ok fields').
  { eapply mapM_fixed; [|exact Hmap].
    intros e e' Hin. apply (IH e).
    pose proof (size_elem _ _ Hin).
    assert (Hin' : In ("fields", JList elems) d).
    { clear - Hf. induction d as [|[k x] d IHd]; cbn in Hf; [discriminate|].
      destruct (String.eqb_spec k "fields") as [->|Hne].
      - injection Hf as ->. left; reflexivity.
      - right. apply IHd, Hf. }
    pose proof (size_value _ _ _ Hin'). lia. }
  rewrite case_record_eq.
  assert (Henum' : is_enum (dict_set "fields" (JList fields') d) = false).
  { unfold is_enum in *. rewrite dict_get_set_other by discriminate. exact Henum. }
  rewrite Henum', dict_get_set_same.
  assert (Ht' : truthy (JList fields') = true).
  { apply mapM_length in Hmap. destruct elems, fields'; cbn in *; congruence. }
  rewrite Ht'. cbn [py_iter bind]. rewrite Hfix. cbn [bind].
  rewrite dict_set_set. reflexivity.
Qed.

(** C4, as the code has it.  For a style whose case function is idempotent,
    applying [case_record] to its own result gives that result again:
    [case_record(case_record(d, s), s) == case_record(d, s)]; when the first
    call raises, so does the composition. *)
Theorem case_record_idempotent (d : json) :
  (d' <- case_record casefy case_type d ;; case_record casefy case_type d') = case_record casefy case_type d.
Proof.
  destruct (case_record casefy case_type d) as [d'|e] eqn:H; [|reflexivity].
  cbn. exact (proj2 (case_fixed_below (S (size d)) d (Nat.lt_succ_diag_r _)) d' H).
Qed.

End Idempotence.

Lemma to_lower_idempotent (c : ascii) :
  AsciiCase.to_lower (AsciiCase.to_lower c) = AsciiCase.to_lower c.
Proof.
  destruct c as [[] [] [] [] [] [] [] []]; reflexivity.
Qed.

Lemma lower_idempotent (s : string) :
  AsciiCase.lower (AsciiCase.lower s) = AsciiCase.lower s.
Proof.
  unfold AsciiCase.lower.
  induction s as [|c s IH]; cbn [AsciiCase.map_chars]; [reflexivity|].
  rewrite to_lower_idempotent, IH. reflexivity.
Qed.

Lemma case_record_idempotent_witness :
  (d' <- case_record AsciiCase.api "lowercase" person_record ;;
   case_record AsciiCase.api "lowercase" d') =
  case_record AsciiCase.api "lowercase" person_record.
Proof.
  apply (case_record_idempotent AsciiCase.api "lowercase").
  intros case_func H. cbn in H. injection H as <-. exact lower_idempotent.
Defined.

Example lowercase_person_record :
  case_record AsciiCase.api "lowercase" person_record =
  Ok (JDict [ ("type", JStr "record");
              ("name", JStr "PersonRecord");
              ("fields", JList [ JDict [ ("name", JStr "fullname");
                                         ("type", JStr "string") ] ]) ]).
Proof. reflexivity. Qed.

(** The claim C4 fails for [pascalcase], whose case function is not
    idempotent: the field [A_B] becomes [AB], and [AB] becomes [Ab]. *)
Lemma pascalcase_not_idempotent :
  case_record AsciiCase.api "pascalcase" (one_field_record "R" "A_B") =
    Ok (one_field_record "R" "AB") /\
  case_record AsciiCase.api "pascalcase" (one_field_record "R" "AB") =
    Ok (one_field_record "R" "Ab") /\
  (d' <- case_record AsciiCase.api "pascalcase" (one_field_record "R" "A_B") ;;
   case_record AsciiCase.api "pascalcase" d') <>
  case_record AsciiCase.api "pascalcase" (one_field_record "R" "A_B").
Proof.
  split; [reflexivity|]. split; [reflexivity | discriminate].
Qed.

(** ** The type hooks *)

(** C7, as the code has it.  On text, the datetime and UUID hooks return the
    parsed value when the parse succeeds; when it raises a [ValueError] or a
    [TypeError] they raise the error of an invalid format, whose message
    names the target type and the text; an exception of another class leaves
    the hook as it is.  A datetime or a UUID is returned unchanged. *)
Theorem hooks_parse_or_reject (lib : parsers) (s : string) :
  parse_datetime lib (PStr s) =
    match parser_parse lib s with
    | Ok dt => Ok (PDatetime dt)
    | Err e =>
        if value_or_type_error e
        then Err (ValueError ("Invalid datetime format: " ++ s))
        else Err e
    end
  /\ parse_uuid lib (PStr s) =
    match uuid_UUID lib s with
    | Ok u => Ok (PUUID u)
    | Err e =>
        if value_or_type_error e
        then Err (ValueError ("Invalid UUID format: " ++ s))
        else Err e
    end
  /\ (forall dt, parse_datetime lib (PDatetime dt) = Ok (PDatetime dt))
  /\ (forall u, parse_uuid lib (PUUID u) = Ok (PUUID u)).
Proof.
  repeat split.
  - cbn. destruct (parser_parse lib s) as [dt|e]; [reflexivity|].
    cbn. destruct (value_or_type_error e); reflexivity.
  - cbn. destruct (uuid_UUID lib s) as [u|e]; [reflexivity|].
    cbn. destruct (value_or_type_error e); reflexivity.
Qed.

(** The claim C7 fails on a text that makes the parser raise an exception
    of another class: the number [2147483648] is an [OverflowError], which
    the hook neither turns into a value nor into the error of an invalid
    format. *)
Lemma datetime_hook_overflow :
  parse_datetime FixedFormat.lib (PStr "2147483648") = Err OverflowError /\
  (forall dt, parse_datetime FixedFormat.lib (PStr "2147483648") <> Ok (PDatetime dt)) /\
  (forall msg, parse_datetime FixedFormat.lib (PStr "2147483648") <> Err (ValueError msg)).
Proof.
  split; [reflexivity|]. split; intros x; discriminate.
Qed.

Example datetime_hook_parses :
  parse_datetime FixedFormat.lib (PStr "2024-01-02 03:04:05") =
  Ok (PDatetime {| dt_date := {| year := 2024; month := 1; day := 2 |};
                   dt_time := {| hour := 3; minute := 4; second := 5;
                                 microsecond := 0 |};
                   tzinfo := None |}).
Proof. reflexivity. Qed.

Example datetime_hook_rejects :
  parse_datetime FixedFormat.lib (PStr "not-a-date") =
  Err (ValueError "Invalid datetime format: not-a-date").
Proof. reflexivity. Qed.

Example uuid_hook_rejects :
  parse_uuid FixedFormat.lib (PStr "not-a-uuid") =
  Err (ValueError "Invalid UUID format: not-a-uuid").
Proof. reflexivity. Qed.

(** C8. On every text, the date hook and the time hook agree with the
    datetime hook: when the datetime hook returns a datetime they return its
    date and its time, and when it fails they fail. *)
Theorem date_time_hooks_follow_datetime (lib : parsers) (s : string) :
  match parse_datetime lib (PStr s) with
  | Ok v =>
      exists dt, v = PDatetime dt /\
                 parse_date lib (PStr s) = Ok (PDate (dt_date dt)) /\
                 parse_time lib (PStr s) = Ok (PTime (dt_time dt))
  | Err _ =>
      is_err (parse_date lib (PStr s)) = true /\
      is_err (parse_time lib (PStr s)) = true
  end.
Proof.
  cbn. destruct (parser_parse lib s) as [dt|e]; cbn.
  - exists dt. repeat split.
  - destruct (value_or_type_error e); split; reflexivity.
Qed.

(** ** The configuration *)

Lemma dict_get_update {V : Type} (key : string) (base other : dict V) :
  NoDup (dict_keys other) ->
  dict_get key (dict_update base other) =
  match dict_get key other with
  | Some v => Some v
  | None => dict_get key base
  end.
Proof.
  unfold dict_update. revert base.
  induction other as [|[k v] other IH]; intros base Hnd; [reflexivity|].
  cbn in Hnd. inversion Hnd as [|? ? Hnotin Hnd']; subst.
  cbn [fold_left fst snd dict_get]. rewrite IH by assumption.
  destruct (String.eqb_spec k key) as [->|Hne].
  - apply dict_get_None_keys in Hnotin. unfold dict_keys in Hnotin.
    rewrite Hnotin. apply dict_get_set_same.
  - rewrite dict_get_set_other by congruence. reflexivity.
Qed.

Lemma dict_keys_set_in {V : Type} (key k : string) (v : V) (d : dict V) :
  In k (dict_keys (dict_set key v d)) -> k = key \/ In k (dict_keys d).
Proof.
  induction d as [|[k0 x] d IH]; cbn.
  - intros [H|[]]; auto.
  - destruct (String.eqb k0 key); cbn; [tauto|].
    intros [H|H]; [tauto | apply IH in H; tauto].
Qed.

Lemma dict_keys_update_in {V : Type} (k : string) (base other : dict V) :
  In k (dict_keys (dict_update base other)) ->
  In k (dict_keys base) \/ In k (dict_keys other).
Proof.
  unfold dict_update. revert base.
  induction other as [|[k0 v] other IH]; intros base; cbn [fold_left]; [tauto|].
  intros H. apply IH in H as [H|H]; [|right; right; exact H].
  apply dict_keys_set_in in H as [->|H]; [right; left; reflexivity | tauto].
Qed.

Lemma merged_dacite_config_eq (lib : parsers) (model : AvroModel) :
  merged_dacite_config lib model =
  dict_update (default_dacite_config lib model) (user_overrides model).
Proof.
  unfold merged_dacite_config, user_overrides.
  destruct (dacite_user_config model) as [[|kv user]|]; reflexivity.
Qed.

(** [generate_dacite_config] returns a configuration for every model whose
    schema is generated and whose user configuration is accepted; what it
    returns is the merged dict read field by field, with the enforced casts
    at the end of the cast list. *)
Lemma generate_dacite_config_returns (lib : parsers) (model : AvroModel) :
  generate_schema model = Ok tt ->
  valid_override (user_overrides model) ->
  exists config,
    generate_dacite_config lib model = Ok config /\
    check_types config =
      kwarg "check_types" (CBool false) (user_overrides model) /\
    cast config =
      CTypeList (user_casts (user_overrides model) ++ enforced_casts).
Proof.
  intros Hgen (Hnd & Hkeys & Hcast).
  unfold generate_dacite_config. rewrite Hgen. cbn [bind].
  rewrite merged_dacite_config_eq.
  set (user := user_overrides model) in *.
  set (merged := dict_update (default_dacite_config lib model) user).
  assert (Hinit : forallb (fun k => existsb (String.eqb k) (Config_keywords lib))
                    (dict_keys merged) = true).
  { apply forallb_forall. intros k Hk.
    apply existsb_exists. exists k. split; [|apply String.eqb_refl].
    apply in_or_app. left.
    apply dict_keys_update_in in Hk as [Hk|Hk]; [|apply Hkeys, Hk].
    cbn in Hk |- *. tauto. }
  unfold Config_init. rewrite Hinit. cbn [bind cast].
  assert (Hc : kwarg "cast" (CTypeList []) merged = CTypeList (user_casts user)).
  { unfold kwarg, merged, user_casts. rewrite dict_get_update by assumption.
    destruct (dict_get "cast" user) as [v|] eqn:E; [|reflexivity].
    destruct (Hcast v eq_refl) as (l & ->). reflexivity. }
  rewrite Hc. cbn [extend bind]. eexists. split; [reflexivity|].
  cbn [set_cast check_types cast]. split; [|reflexivity].
  unfold kwarg, merged. rewrite dict_get_update by assumption.
  destruct (dict_get "check_types" user); reflexivity.
Qed.

(** C5, as the code has it.  The configuration built for a model has
    [check_types] set to [False] when the user configuration does not set
    it (or there is none); a user configuration that sets [check_types] has
    its value taken. *)
Theorem check_types_follows_override (lib : parsers) (model : AvroModel) :
  generate_schema model = Ok tt ->
  valid_override (user_overrides model) ->
  exists config,
    generate_dacite_config lib model = Ok config /\
    check_types config =
      match dict_get "check_types" (user_overrides model) with
      | Some v => v
      | None => CBool false
      end.
Proof.
  intros Hgen Hvalid.
  destruct (generate_dacite_config_returns lib model Hgen Hvalid)
    as (config & Hrun & Hcheck & _).
  exists config. split; [exact Hrun | exact Hcheck].
Qed.

Ltac valid_override_tac :=
  repeat split;
  [ cbn; repeat constructor; cbn; intuition discriminate
  | cbn; intros key Hk; repeat destruct Hk as [<-|Hk]; cbn; tauto
  | cbn; intros v Hv; try discriminate; injection Hv as <-; eauto ].

Lemma check_types_follows_override_witness :
  exists config,
    generate_dacite_config FixedFormat.lib casting_model = Ok config /\
    check_types config = CBool false.
Proof.
  apply (check_types_follows_override FixedFormat.lib casting_model);
    [reflexivity | valid_override_tac].
Defined.

(** The claim C5 fails for a model whose user configuration sets
    [check_types]: the configuration built has the user's value. *)
Lemma user_config_enables_check_types :
  exists config,
    generate_dacite_config FixedFormat.lib checked_model = Ok config /\
    check_types config = CBool true /\
    check_types config <> CBool false.
Proof.
  eexists. split; [reflexivity|]. split; [reflexivity | discriminate].
Qed.

(** C6. For every model and every user configuration, the cast list of the
    configuration built is the cast list of the user configuration (empty
    when it gives none) followed by the rules for [typing.Tuple], [tuple]
    and [enum.Enum]. *)
Theorem cast_rules_enforced (lib : parsers) (model : AvroModel) :
  generate_schema model = Ok tt ->
  valid_override (user_overrides model) ->
  exists config,
    generate_dacite_config lib model = Ok config /\
    cast config =
      CTypeList (user_casts (user_overrides model) ++
                 [T_typing_Tuple; T_tuple; T_Enum]).
Proof.
  intros Hgen Hvalid.
  destruct (generate_dacite_config_returns lib model Hgen Hvalid)
    as (config & Hrun & _ & Hcast).
  exists config. split; [exact Hrun | exact Hcast].
Qed.

Lemma cast_rules_enforced_witness :
  exists config,
    generate_dacite_config FixedFormat.lib casting_model = Ok config /\
    cast config = CTypeList [T_class "Color"; T_typing_Tuple; T_tuple; T_Enum].
Proof.
  apply (cast_rules_enforced FixedFormat.lib casting_model);
    [reflexivity | valid_override_tac].
Defined.

Example plain_model_config :
  exists config,
    generate_dacite_config FixedFormat.lib plain_model = Ok config /\
    check_types config = CBool false /\
    cast config = CTypeList [T_typing_Tuple; T_tuple; T_Enum] /\
    forward_references config = CRefs [("User", T_class "User")].
Proof.
  eexists. repeat split.
Qed.

(** A user configuration with a keyword [Config] does not have, or with a
    [cast] that is not a list, makes the function fail. *)
Example unknown_keyword_rejected :
  generate_dacite_config FixedFormat.lib
    {| klass_name := "User"; generate_schema := Ok tt;
       dacite_user_config := Some [("checkTypes", CBool true)] |}
  = Err TypeError.
Proof. reflexivity. Qed.

Example tuple_cast_rejected :
  generate_dacite_config FixedFormat.lib
    {| klass_name := "User"; generate_schema := Ok tt;
       dacite_user_config := Some [("cast", CTypeTuple [T_class "Color"])] |}
  = Err AttributeError.
Proof. reflexivity. Qed.

(** ** Further properties of the case transformer *)

Lemma dict_get_In {V : Type} (key : string) (d : dict V) (v : V) :
  dict_get key d = Some v -> In (key, v) d.
Proof.
  induction d as [|[k x] d IH]; cbn; [discriminate|].
  destruct (String.eqb_spec k key) as [->|Hne].
  - intros H; injection H as ->. left; reflexivity.
  - intros H. right. apply IH, H.
Qed.

Lemma dict_set_get_same {V : Type} (key : string) (v : V) (d : dict V) :
  dict_get key d = Some v -> dict_set key v d = d.
Proof.
  induction d as [|[k x] d IH]; cbn; [discriminate|].
  destruct (String.eqb_spec k key) as [->|Hne].
  - intros H; injection H as ->. reflexivity.
  - intros H. rewrite IH by assumption. reflexivity.
Qed.

Lemma mapM_In_Ok {A B : Type} (f : A -> result B) (l : list A) (l' : list B)
    (x : A) :
  mapM f l = Ok l' -> In x l -> exists y, f x = Ok y.
Proof.
  intros H. apply mapM_Forall2 in H.
  induction H as [|x0 y0 l l' Hxy _ IH]; cbn; [tauto|].
  intros [<-|Hin]; eauto.
Qed.

Lemma mapM_succeeds {A B : Type} (f : A -> result B) (l : list A) :
  (forall x, In x l -> exists y, f x = Ok y) -> exists l', mapM f l = Ok l'.
Proof.
  induction l as [|x l IH]; intros H; cbn; [eauto|].
  destruct (H x (or_introl eq_refl)) as (y & Hy).
  destruct IH as (l' & Hl'); [intros x0 Hx0; apply H; right; exact Hx0|].
  rewrite Hy, Hl'. cbn. eauto.
Qed.

Lemma mapM_same {A : Type} (f : A -> result A) (l l' : list A) :
  (forall x y, In x l -> f x = Ok y -> y = x) -> mapM f l = Ok l' -> l' = l.
Proof.
  intros Hf H. apply mapM_Forall2 in H.
  induction H as [|x y l l' Hxy _ IH]; [reflexivity|].
  rewrite (Hf x y (or_introl eq_refl) Hxy). f_equal.
  apply IH. intros x0 y0 Hin. apply Hf. right; exact Hin.
Qed.

Lemma same_outline_refl (v : json) : same_outline v v.
Proof.
  destruct v; cbn; eauto.
Qed.

(** [case_item] returns nothing on an item that is not a dict. *)
Lemma case_item_nondict_fails (casefy : casefy_api) (case_type : string)
    (v v' : json) :
  is_dict v = false -> case_item casefy case_type v <> Ok v'.
Proof.
  intros Hv. rewrite case_item_eq.
  destruct (lookup_case casefy case_type); [|discriminate].
  destruct v; try discriminate.
Qed.

(** [case_record] when [fields] is true and a document is returned: [fields]
    is a list, and the document is the argument with the new list. *)
Lemma case_record_fields_inv (casefy : casefy_api) (case_type : string)
    (d : dict json) (fields v' : json) :
  is_enum d = false ->
  dict_get "fields" d = Some fields ->
  truthy fields = true ->
  case_record casefy case_type (JDict d) = Ok v' ->
  exists elems fields',
    fields = JList elems /\
    mapM (case_item casefy case_type) elems = Ok fields' /\
    v' = JDict (dict_set "fields" (JList fields') d).
Proof.
  intros Henum Hf Ht H. rewrite case_record_eq, Henum, Hf, Ht in H.
  apply bind_Ok_inv in H as (elems & Hiter & H).
  apply bind_Ok_inv in H as (fields' & Hmap & H). injection H as <-.
  exists elems, fields'. split; [|split; [exact Hmap | reflexivity]].
  destruct fields as [| | | |s|l|m]; try discriminate.
  - exfalso. destruct s; [discriminate|]. cbn in Hiter. injection Hiter as <-.
    cbn [chars map] in Hmap.
    destruct (mapM_In_Ok _ _ _ _ Hmap (or_introl eq_refl)) as (y & Hy).
    revert Hy. apply case_item_nondict_fails. reflexivity.
  - cbn in Hiter. injection Hiter as <-. reflexivity.
  - exfalso. destruct m; [discriminate|]. cbn in Hiter. injection Hiter as <-.
    cbn [dict_keys map] in Hmap.
    destruct (mapM_In_Ok _ _ _ _ Hmap (or_introl eq_refl)) as (y & Hy).
    revert Hy. apply case_item_nondict_fails. reflexivity.
Qed.

(** [case_record] when [fields] is absent or false: it is [case_item]. *)
Lemma case_record_no_fields (casefy : casefy_api) (case_type : string)
    (d : dict json) :
  is_enum d = false ->
  match dict_get "fields" d with
  | Some fields => truthy fields = false
  | None => True
  end ->
  case_record casefy case_type (JDict d) = case_item casefy case_type (JDict d).
Proof.
  intros Henum Hf. rewrite case_record_eq, Henum.
  destruct (dict_get "fields" d) as [fields|]; [rewrite Hf|]; reflexivity.
Qed.

(** X1. Whatever the token, a document returned by [case_item] or by
    [case_record] for a dict is a dict with the same keys in the same order,
    and under every key other than [name] the value keeps its outline: a
    dict keeps its keys, a list its length, a scalar its value. *)
Theorem case_keeps_keys (casefy : casefy_api) (case_type : string)
    (d : dict json) (v' : json) :
  case_item casefy case_type (JDict d) = Ok v' \/
  case_record casefy case_type (JDict d) = Ok v' ->
  exists d',
    v' = JDict d' /\
    dict_keys d' = dict_keys d /\
    forall key v, key <> "name" -> dict_get key d = Some v ->
                  exists w, dict_get key d' = Some w /\ same_outline v w.
Proof.
  assert (Hitem : case_item casefy case_type (JDict d) = Ok v' ->
    exists d', v' = JDict d' /\ dict_keys d' = dict_keys d /\
      forall key v, key <> "name" -> dict_get key d = Some v ->
                    exists w, dict_get key d' = Some w /\ same_outline v w).
  { intros H. apply case_item_Ok_inv in H as (f & d' & _ & Hd & ->).
    exists d'. split; [reflexivity|]. split; [eapply case_entries_keys; eauto|].
    intros key v Hkey Hv.
    destruct (case_entries_get _ _ _ _ _ _ _ Hd Hv) as (w & Hw & Hc).
    exists w. split; [exact Hw|]. eapply case_value_outline; eauto. }
  intros [H|H]; [exact (Hitem H)|].
  destruct (is_enum d) eqn:Henum.
  { rewrite case_record_eq, Henum in H. injection H as <-.
    exists d. repeat split. intros key v _ Hv. exists v. split; [exact Hv|].
    apply same_outline_refl. }
  destruct (dict_get "fields" d) as [fields|] eqn:Hf.
  - destruct (truthy fields) eqn:Ht.
    + destruct (case_record_fields_inv _ _ _ _ _ Henum Hf Ht H)
        as (elems & fields' & -> & Hmap & ->).
      eexists. split; [reflexivity|]. split; [eapply dict_keys_set; eauto|].
      intros key v _ Hv. destruct (String.eqb_spec key "fields") as [->|Hne].
      * rewrite Hf in Hv. injection Hv as <-.
        rewrite dict_get_set_same. eexists. split; [reflexivity|].
        cbn. exists fields'. split; [reflexivity|]. eapply mapM_length; eauto.
      * rewrite dict_get_set_other by assumption.
        exists v. split; [exact Hv | apply same_outline_refl].
    + rewrite case_record_no_fields in H; [exact (Hitem H) | exact Henum|].
      rewrite Hf. exact Ht.
  - rewrite case_record_no_fields in H; [exact (Hitem H) | exact Henum|].
    rewrite Hf. exact I.
Qed.

Lemma case_keeps_keys_witness :
  exists d',
    case_record AsciiCase.api "snakecase" person_record = Ok (JDict d') /\
    dict_keys d' = ["type"; "name"; "fields"].
Proof.
  destruct (case_keeps_keys AsciiCase.api "snakecase"
              [ ("type", JStr "record"); ("name", JStr "PersonRecord");
                ("fields", JList [ JDict [ ("name", JStr "fullName");
                                           ("type", JStr "string") ] ]) ]
              (JDict [ ("type", JStr "record"); ("name", JStr "PersonRecord");
                       ("fields", JList [ JDict [ ("name", JStr "full_name");
                                                  ("type", JStr "string") ] ]) ]))
    as (d' & Hd' & Hkeys & _); [right; reflexivity|].
  exists d'. split; [rewrite <- Hd'; reflexivity | exact Hkeys].
Defined.

(** X2. A record with fields (a true [fields] entry) comes back from
    [case_record] with every other entry as it was, its own [name]
    included: only [fields] is replaced, by a list of the same length. *)
Theorem record_with_fields_keeps_entries (casefy : casefy_api)
    (case_type : string) (d : dict json) (fields v' : json) :
  dict_get "type" d <> Some (JStr "enum") ->
  dict_get "fields" d = Some fields ->
  truthy fields = true ->
  case_record casefy case_type (JDict d) = Ok v' ->
  exists d' elems elems',
    v' = JDict d' /\
    fields = JList elems /\
    dict_get "fields" d' = Some (JList elems') /\
    length elems' = length elems /\
    forall key, key <> "fields" -> dict_get key d' = dict_get key d.
Proof.
  intros Hnot Hf Ht H.
  assert (Henum : is_enum d = false).
  { destruct (is_enum d) eqn:E; [apply is_enum_true in E; contradiction | reflexivity]. }
  destruct (case_record_fields_inv _ _ _ _ _ Henum Hf Ht H)
    as (elems & fields' & -> & Hmap & ->).
  exists (dict_set "fields" (JList fields') d), elems, fields'.
  split; [reflexivity|]. split; [reflexivity|].
  split; [apply dict_get_set_same|].
  split; [eapply mapM_length; eauto|].
  intros key Hkey. apply dict_get_set_other. exact Hkey.
Qed.

Lemma record_with_fields_keeps_entries_witness :
  exists d',
    case_record AsciiCase.api "uppercase" person_record = Ok (JDict d') /\
    dict_get "name" d' = Some (JStr "PersonRecord").
Proof.
  destruct (record_with_fields_keeps_entries AsciiCase.api "uppercase"
              [ ("type", JStr "record"); ("name", JStr "PersonRecord");
                ("fields", JList [ JDict [ ("name", JStr "fullName");
                                           ("type", JStr "string") ] ]) ]
              (JList [ JDict [ ("name", JStr "fullName"); ("type", JStr "string") ] ])
              (JDict [ ("type", JStr "record"); ("name", JStr "PersonRecord");
                       ("fields", JList [ JDict [ ("name", JStr "FULLNAME");
                                                  ("type", JStr "string") ] ]) ]))
    as (d' & elems & elems' & Hd' & _ & _ & _ & Hkeep);
    try reflexivity; [discriminate|].
  exists d'. split; [rewrite <- Hd'; reflexivity|].
  rewrite Hkeep by discriminate. reflexivity.
Defined.

(** X3. A dict that is not an enum definition and has no fields ([fields]
    absent, or empty, or otherwise false) has its own [name] renamed by
    [case_record]. *)
Theorem record_without_fields_renamed (casefy : casefy_api)
    (case_type : string) (case_func : string -> string) (d : dict json)
    (name : string) (v' : json) :
  dict_get case_type (CASE_TO_FUNC casefy) = Some case_func ->
  dict_get "type" d <> Some (JStr "enum") ->
  match dict_get "fields" d with
  | Some fields => truthy fields = false
  | None => True
  end ->
  dict_get "name" d = Some (JStr name) ->
  case_record casefy case_type (JDict d) = Ok v' ->
  exists d', v' = JDict d' /\ dict_get "name" d' = Some (JStr (case_func name)).
Proof.
  intros Hf Hnot Hfields Hname H.
  assert (Henum : is_enum d = false).
  { destruct (is_enum d) eqn:E; [apply is_enum_true in E; contradiction | reflexivity]. }
  rewrite case_record_no_fields in H by assumption.
  apply case_item_Ok_inv in H as (f & d' & Hlook & Hd & ->).
  apply lookup_case_Ok in Hlook. rewrite Hf in Hlook. injection Hlook as <-.
  destruct (case_entries_get _ _ _ _ _ _ _ Hd Hname) as (w & Hw & Hc).
  cbn in Hc. injection Hc as <-. eauto.
Qed.

Lemma record_without_fields_renamed_witness :
  exists d',
    case_record AsciiCase.api "snakecase"
      (JDict [ ("type", JStr "record"); ("name", JStr "EmptyRecord");
               ("fields", JList []) ]) = Ok (JDict d') /\
    dict_get "name" d' = Some (JStr "empty_record").
Proof.
  destruct (record_without_fields_renamed AsciiCase.api "snakecase"
              AsciiCase.snake
              [ ("type", JStr "record"); ("name", JStr "EmptyRecord");
                ("fields", JList []) ]
              "EmptyRecord"
              (JDict [ ("type", JStr "record"); ("name", JStr "empty_record");
                       ("fields", JList []) ]))
    as (d' & Hd' & Hname); try reflexivity; [discriminate|].
  exists d'. split; [rewrite <- Hd'; reflexivity | exact Hname].
Defined.

(** X4. Under a key other than [name], [case_item] stores back unchanged
    every scalar, every dict that has no [name] key, every enum definition,
    and every list whose dicts are all enum definitions (a list of strings,
    a union with an enum). *)
Theorem case_item_leaves_alone (casefy : casefy_api) (case_type : string)
    (d : dict json) (v' : json) (key : string) (v : json) :
  key <> "name" ->
  dict_get key d = Some v ->
  left_alone v = true ->
  case_item casefy case_type (JDict d) = Ok v' ->
  exists d', v' = JDict d' /\ dict_get key d' = Some v.
Proof.
  intros Hkey Hv Hleft H.
  apply case_item_Ok_inv in H as (f & d' & _ & Hd & ->).
  exists d'. split; [reflexivity|].
  destruct (case_entries_get _ _ _ _ _ _ _ Hd Hv) as (w & Hw & Hc).
  rewrite Hw. f_equal.
  assert (Henum : forall m, is_enum m = true ->
            case_record casefy case_type (JDict m) = Ok (JDict m)).
  { intros m Hm. rewrite case_record_eq, Hm. reflexivity. }
  unfold case_value in Hc. apply String.eqb_neq in Hkey. rewrite Hkey in Hc.
  destruct v as [| | | | |l|m]; try (injection Hc as <-; reflexivity).
  - apply bind_Ok_inv in Hc as (l' & Hl & Hc). injection Hc as <-. f_equal.
    eapply mapM_same; [|exact Hl]. cbn in Hleft.
    intros e e' Hin He. rewrite forallb_forall in Hleft. specialize (Hleft e Hin).
    destruct e as [| | | | | |m]; try (injection He as <-; reflexivity).
    rewrite (Henum m Hleft) in He. injection He as <-. reflexivity.
  - cbn in Hleft. destruct (dict_has "name" m).
    + cbn in Hleft. rewrite (Henum m Hleft) in Hc. injection Hc as <-. reflexivity.
    + injection Hc as <-. reflexivity.
Qed.

Lemma case_item_leaves_alone_witness :
  exists d',
    case_item AsciiCase.api "uppercase"
      (JDict [ ("name", JStr "favColor");
               ("type", JList [JStr "null"; JDict color_enum]) ]) = Ok (JDict d') /\
    dict_get "type" d' = Some (JList [JStr "null"; JDict color_enum]).
Proof.
  destruct (case_item_leaves_alone AsciiCase.api "uppercase"
              [ ("name", JStr "favColor");
                ("type", JList [JStr "null"; JDict color_enum]) ]
              (JDict [ ("name", JStr "FAVCOLOR");
                       ("type", JList [JStr "null"; JDict color_enum]) ])
              "type" (JList [JStr "null"; JDict color_enum]))
    as (d' & Hd' & Hget); try reflexivity; [discriminate|].
  exists d'. split; [rewrite <- Hd'; reflexivity | exact Hget].
Defined.

(** ** Documents the transformer accepts, and documents it does not change *)

Lemma names_of_value (d : dict json) (k s : string) (x : json) :
  In (k, x) d -> In s (names_of x) -> In s (names_of (JDict d)).
Proof.
  intros Hin Hs. cbn [names_of]. apply in_flat_map.
  exists (k, x). split; [exact Hin|]. apply in_or_app. right. exact Hs.
Qed.

Lemma names_of_name (d : dict json) (s : string) :
  In ("name", JStr s) d -> In s (names_of (JDict d)).
Proof.
  intros Hin. cbn [names_of]. apply in_flat_map.
  exists ("name", JStr s). split; [exact Hin|]. left. reflexivity.
Qed.

Lemma names_of_elem (l : list json) (s : string) (e : json) :
  In e l -> In s (names_of e) -> In s (names_of (JList l)).
Proof.
  intros Hin Hs. cbn [names_of]. apply in_flat_map. eauto.
Qed.

Lemma well_formed_entry (d : dict json) (k : string) (x : json) :
  well_formed (JDict d) = true -> In (k, x) d ->
  (k = "name" -> is_str x = true) /\ well_formed x = true.
Proof.
  cbn [well_formed]. rewrite forallb_forall. intros Hwf Hin.
  specialize (Hwf _ Hin). cbn [fst snd] in Hwf.
  apply andb_true_iff in Hwf as [Hwf Hx]. apply andb_true_iff in Hwf as [Hname _].
  split; [|exact Hx]. intros ->. exact Hname.
Qed.

Lemma well_formed_elem (l : list json) (e : json) :
  well_formed (JList l) = true -> In e l -> well_formed e = true.
Proof.
  cbn [well_formed]. rewrite forallb_forall. auto.
Qed.

Section Unchanged.

Variable casefy : casefy_api.
Variable case_type : string.
Variable case_func : string -> string.

Hypothesis case_func_found :
  dict_get case_type (CASE_TO_FUNC casefy) = Some case_func.

Lemma case_same_below (n : nat) (v : json) :
  size v < n ->
  well_formed v = true ->
  (forall s, In s (names_of v) -> case_func s = s) ->
  (forall v', case_item casefy case_type v = Ok v' -> v' = v) /\
  (forall v', case_record casefy case_type v = Ok v' -> v' = v).
Proof.
  revert v. induction n as [|n IH]; intros v Hsize Hwf Hnames; [lia|].
  assert (Hitem : forall v', case_item casefy case_type v = Ok v' -> v' = v).
  { intros v' H.
    destruct v as [| | | | | |d];
      try (exfalso; revert H; apply case_item_nondict_fails; reflexivity).
    apply case_item_Ok_inv in H as (f & d' & Hlook & Hd & ->).
    apply lookup_case_Ok in Hlook. rewrite case_func_found in Hlook.
    injection Hlook as <-. f_equal.
    eapply mapM_same; [|exact Hd].
    intros [k x] kv' Hin Hkv. unfold case_entry in Hkv. cbn [fst snd] in Hkv.
    apply bind_Ok_inv in Hkv as (x' & Hx & Hkv). injection Hkv as <-.
    f_equal. pose proof (size_value _ _ _ Hin) as Hlt.
    destruct (well_formed_entry _ _ _ Hwf Hin) as (Hstr & Hwfx).
    unfold case_value in Hx. destruct (String.eqb_spec k "name") as [->|Hne].
    - specialize (Hstr eq_refl). destruct x; try discriminate.
      cbn in Hx. injection Hx as <-.
      f_equal. apply Hnames. apply names_of_name. exact Hin.
    - destruct x as [| | | | |l|m]; try (injection Hx as <-; reflexivity).
      + apply bind_Ok_inv in Hx as (l' & Hl & Hx). injection Hx as <-. f_equal.
        eapply mapM_same; [|exact Hl].
        intros e e' Hine He. pose proof (size_elem _ _ Hine) as Hlt'.
        destruct e as [| | | | | |m]; try (injection He as <-; reflexivity).
        apply (IH (JDict m)); [lia | | | exact He].
        * eapply well_formed_elem; eauto.
        * intros s Hs. apply Hnames. eapply names_of_value; [exact Hin|].
          eapply names_of_elem; eauto.
      + destruct (dict_has "name" m); [|injection Hx as <-; reflexivity].
        apply (IH (JDict m)); [lia | exact Hwfx | | exact Hx].
        intros s Hs. apply Hnames. eapply names_of_value; eauto. }
  split; [exact Hitem|].
  intros v' H. destruct v as [| | | | | |d]; try discriminate.
  destruct (is_enum d) eqn:Henum.
  { rewrite case_record_eq, Henum in H. injection H as <-. reflexivity. }
  destruct (dict_get "fields" d) as [fields|] eqn:Hf.
  - destruct (truthy fields) eqn:Ht.
    + destruct (case_record_fields_inv _ _ _ _ _ Henum Hf Ht H)
        as (elems & fields' & -> & Hmap & ->).
      pose proof (dict_get_In _ _ _ Hf) as Hin.
      pose proof (size_value _ _ _ Hin) as Hlt.
      destruct (well_formed_entry _ _ _ Hwf Hin) as (_ & Hwfl).
      assert (fields' = elems) as ->.
      { eapply mapM_same; [|exact Hmap].
        intros e e' Hine. pose proof (size_elem _ _ Hine).
        apply (IH e); [lia | eapply well_formed_elem; eauto |].
        intros s Hs. apply Hnames. eapply names_of_value; [exact Hin|].
        eapply names_of_elem; eauto. }
      rewrite dict_set_get_same by assumption. reflexivity.
    + rewrite case_record_no_fields in H; [exact (Hitem _ H) | exact Henum|].
      rewrite Hf. exact Ht.
  - rewrite case_record_no_fields in H; [exact (Hitem _ H) | exact Henum|].
    rewrite Hf. exact I.
Qed.

End Unchanged.

Section Accepted.

Variable casefy : casefy_api.
Variable case_type : string.

Hypothesis supported : In case_type case_tokens.

Lemma case_accepts_below (n : nat) (d : dict json) :
  size (JDict d) < n ->
  well_formed (JDict d) = true ->
  (exists v', case_item casefy case_type (JDict d) = Ok v') /\
  (exists v', case_record casefy case_type (JDict d) = Ok v').
Proof.
  revert d. induction n as [|n IH]; intros d Hsize Hwf; [lia|].
  destruct (lookup_case_supported casefy case_type supported) as (f & _ & Hlook).
  cbn [well_formed] in Hwf. rewrite forallb_forall in Hwf.
  assert (Hitem : exists v', case_item casefy case_type (JDict d) = Ok v').
  { rewrite case_item_eq, Hlook. cbn [bind].
    destruct (mapM_succeeds (case_entry casefy case_type f) d) as (d' & Hd');
      [|rewrite Hd'; cbn; eauto].
    intros [k x] Hin. specialize (Hwf _ Hin). cbn [fst snd] in Hwf.
    apply andb_true_iff in Hwf as [Hwf Hx]. apply andb_true_iff in Hwf as [Hname _].
    pose proof (size_value _ _ _ Hin) as Hlt.
    unfold case_entry, case_value. cbn [fst snd].
    destruct (String.eqb k "name").
    - destruct x; try discriminate. cbn. eauto.
    - destruct x as [| | | | |l|m]; cbn [bind]; eauto.
      + destruct (mapM_succeeds
                    (fun element =>
                       match element with
                       | JDict _ => case_record casefy case_type element
                       | _ => Ok element
                       end) l) as (l' & Hl'); [|rewrite Hl'; cbn; eauto].
        intros e Hine. pose proof (size_elem _ _ Hine) as Hlt'.
        cbn [well_formed] in Hx. rewrite forallb_forall in Hx.
        destruct e as [| | | | | |m]; eauto.
        apply (IH m); [lia | apply Hx, Hine].
      + destruct (dict_has "name" m); [|cbn; eauto].
        destruct (IH m) as (_ & v' & Hv'); [lia | exact Hx|].
        rewrite Hv'. cbn. eauto. }
  split; [exact Hitem|].
  rewrite case_record_eq. destruct (is_enum d); [eauto|].
  destruct (dict_get "fields" d) as [fields|] eqn:Hf; [|exact Hitem].
  destruct (truthy fields) eqn:Ht; [|exact Hitem].
  pose proof (dict_get_In _ _ _ Hf) as Hin.
  pose proof (size_value _ _ _ Hin) as Hlt.
  specialize (Hwf _ Hin). cbn [fst snd] in Hwf.
  apply andb_true_iff in Hwf as [Hwf Hx]. apply andb_true_iff in Hwf as [_ Hfields].
  cbn [String.eqb Ascii.eqb Bool.eqb] in Hfields.
  unfold fields_well_formed in Hfields. rewrite Ht in Hfields. cbn in Hfields.
  destruct fields as [| | | | |l|]; try discriminate.
  cbn [py_iter bind].
  destruct (mapM_succeeds (case_item casefy case_type) l) as (l' & Hl');
    [|rewrite Hl'; cbn; eauto].
  intros e Hine. pose proof (size_elem _ _ Hine) as Hlt'.
  rewrite forallb_forall in Hfields. specialize (Hfields _ Hine).
  cbn [well_formed] in Hx. rewrite forallb_forall in Hx. specialize (Hx _ Hine).
  destruct e as [| | | | | |m]; try discriminate.
  apply (IH m); [lia | exact Hx].
Qed.

(** X6. With a supported token, [case_record] returns a document for every
    dict in which, at any depth, every [name] is a string and every [fields]
    is a list of dicts: it raises nothing on such a schema. *)
Theorem case_record_accepts_well_formed (d : dict json) :
  well_formed (JDict d) = true ->
  exists d', case_record casefy case_type (JDict d) = Ok (JDict d').
Proof.
  intros Hwf.
  destruct (case_accepts_below (S (size (JDict d))) d (Nat.lt_succ_diag_r _) Hwf)
    as (_ & v' & Hv').
  destruct (case_record_outline _ _ _ _ Hv') as (d' & -> & _).
  exists d'. exact Hv'.
Qed.

End Accepted.

Lemma case_record_accepts_well_formed_witness :
  exists d', case_record AsciiCase.api "camelcase" palette_record = Ok (JDict d').
Proof.
  apply (case_record_accepts_well_formed AsciiCase.api "camelcase");
    [in_tokens | reflexivity].
Defined.

(** X5. For a dict in which, at any depth, every [name] is a string and every
    [fields] is a list of dicts, and whose names the case function of the
    style all maps to themselves (the document already follows the style),
    [case_record] returns the document unchanged. *)
Theorem case_record_unchanged (casefy : casefy_api) (case_type : string)
    (case_func : string -> string) (d : dict json) :
  dict_get case_type (CASE_TO_FUNC casefy) = Some case_func ->
  well_formed (JDict d) = true ->
  (forall s, In s (names_of (JDict d)) -> case_func s = s) ->
  case_record casefy case_type (JDict d) = Ok (JDict d).
Proof.
  intros Hf Hwf Hnames.
  assert (Hin : In case_type case_tokens).
  { rewrite <- (case_tokens_keys casefy).
    destruct (in_dec string_dec case_type (dict_keys (CASE_TO_FUNC casefy)))
      as [Hin|Hout]; [exact Hin|].
    apply dict_get_None_keys in Hout. rewrite Hf in Hout. discriminate. }
  destruct (case_accepts_below casefy case_type Hin (S (size (JDict d))) d
              (Nat.lt_succ_diag_r _) Hwf) as (_ & v' & Hv').
  rewrite Hv'. f_equal.
  exact (proj2 (case_same_below casefy case_type case_func Hf
                  (S (size (JDict d))) (JDict d) (Nat.lt_succ_diag_r _) Hwf Hnames)
           v' Hv').
Qed.

Lemma case_record_unchanged_witness :
  case_record AsciiCase.api "lowercase" palette_record_lower = Ok palette_record_lower.
Proof.
  apply (case_record_unchanged AsciiCase.api "lowercase" AsciiCase.lower);
    [reflexivity | reflexivity |].
  cbn. intros s Hs.
  repeat destruct Hs as [<-|Hs]; try reflexivity. destruct Hs.
Defined.

(** A [name] that is not a string is not kept: a casefy function turns a
    false one into its result for the empty string. *)
Example null_name_becomes_string :
  case_record AsciiCase.api "snakecase" (JDict [("name", JNull)]) =
  Ok (JDict [("name", JStr "")]).
Proof. reflexivity. Qed.

Example null_name_trimcase :
  case_record AsciiCase.api "trimcase" (JDict [("name", JNull)]) = Err TypeError.
Proof. reflexivity. Qed.

(** X7. A record whose [fields] list has an entry that is not a dict is
    never transformed: [case_record] raises, whatever the token. *)
Theorem non_dict_field_rejected (casefy : casefy_api) (case_type : string)
    (d : dict json) (elems : list json) (e : json) :
  dict_get "type" d <> Some (JStr "enum") ->
  dict_get "fields" d = Some (JList elems) ->
  In e elems ->
  is_dict e = false ->
  is_err (case_record casefy case_type (JDict d)) = true.
Proof.
  intros Hnot Hf Hin He.
  destruct (case_record casefy case_type (JDict d)) as [v'|err] eqn:H;
    [exfalso | reflexivity].
  assert (Henum : is_enum d = false).
  { destruct (is_enum d) eqn:E; [apply is_enum_true in E; contradiction | reflexivity]. }
  assert (Ht : truthy (JList elems) = true) by (destruct elems; [destruct Hin | reflexivity]).
  destruct (case_record_fields_inv _ _ _ _ _ Henum Hf Ht H)
    as (l & fields' & Hl & Hmap & _).
  injection Hl as <-.
  destruct (mapM_In_Ok _ _ _ _ Hmap Hin) as (y & Hy).
  revert Hy. apply case_item_nondict_fails. exact He.
Qed.

Lemma non_dict_field_rejected_witness :
  is_err
    (case_record AsciiCase.api "snakecase"
       (JDict [ ("type", JStr "record"); ("name", JStr "R");
                ("fields", JList [ JDict [("name", JStr "a")]; JStr "b" ]) ]))
  = true.
Proof.
  apply (non_dict_field_rejected AsciiCase.api "snakecase"
           [ ("type", JStr "record"); ("name", JStr "R");
             ("fields", JList [ JDict [("name", JStr "a")]; JStr "b" ]) ]
           [ JDict [("name", JStr "a")]; JStr "b" ] (JStr "b"));
    [discriminate | reflexivity | right; left; reflexivity | reflexivity].
Defined.

(** X8. Two fields whose names the case function maps to the same string
    come back with the same name: [case_record] renames each field on its
    own and raises nothing for the collision. *)
Theorem colliding_names_not_detected (casefy : casefy_api) (case_type : string)
    (case_func : string -> string) (record_name a b : string) (ta tb : string) :
  dict_get case_type (CASE_TO_FUNC casefy) = Some case_func ->
  case_func a = case_func b ->
  case_record casefy case_type
    (two_field_record record_name a b (JStr ta) (JStr tb)) =
  Ok (two_field_record record_name (case_func a) (case_func a) (JStr ta) (JStr tb)).
Proof.
  intros Hf Hab. apply lookup_case_Ok in Hf.
  unfold two_field_record. rewrite case_record_eq.
  cbn [is_enum dict_get String.eqb Ascii.eqb Bool.eqb ENUM truthy py_iter bind mapM].
  rewrite !case_item_eq, Hf.
  cbn. rewrite Hab. reflexivity.
Qed.

Lemma colliding_names_not_detected_witness :
  case_record AsciiCase.api "snakecase"
    (two_field_record "Person" "fullName" "full_name" (JStr "string") (JStr "string")) =
  Ok (two_field_record "Person" "full_name" "full_name" (JStr "string") (JStr "string")).
Proof.
  apply (colliding_names_not_detected AsciiCase.api "snakecase" AsciiCase.snake
           "Person" "fullName" "full_name" "string" "string");
    reflexivity.
Defined.

(** X14. With a case function that is idempotent, [case_item] applied to its
    own result gives that result again; when it raises, so does the
    composition. *)
Theorem case_item_idempotent (casefy : casefy_api) (case_type : string)
    (item : json) :
  (forall case_func,
      dict_get case_type (CASE_TO_FUNC casefy) = Some case_func ->
      forall x, case_func (case_func x) = case_func x) ->
  (item' <- case_item casefy case_type item ;; case_item casefy case_type item') =
  case_item casefy case_type item.
Proof.
  intros Hidem.
  destruct (case_item casefy case_type item) as [item'|e] eqn:H; [|reflexivity].
  cbn.
  exact (proj1 (case_fixed_below casefy case_type Hidem (S (size item)) item
                  (Nat.lt_succ_diag_r _)) item' H).
Qed.

Lemma case_item_idempotent_witness :
  (item' <- case_item AsciiCase.api "lowercase"
              (JDict [("name", JStr "fullName"); ("type", JStr "string")]) ;;
   case_item AsciiCase.api "lowercase" item') =
  case_item AsciiCase.api "lowercase"
    (JDict [("name", JStr "fullName"); ("type", JStr "string")]).
Proof.
  apply (case_item_idempotent AsciiCase.api "lowercase").
  intros case_func H. cbn in H. injection H as <-. exact lower_idempotent.
Defined.

(** ** Further properties of the hooks and of the configuration *)

(** X9. Each of the five hooks returns its own results unchanged: a hook
    applied to what it returned gives that value again, and a failing hook
    fails the same way. *)
Theorem hooks_idempotent (lib : parsers) (value : pyvalue) :
  (v <- parse_datetime lib value ;; parse_datetime lib v) = parse_datetime lib value /\
  (v <- parse_date lib value ;; parse_date lib v) = parse_date lib value /\
  (v <- parse_time lib value ;; parse_time lib v) = parse_time lib value /\
  (v <- parse_bytes value ;; parse_bytes v) = parse_bytes value /\
  (v <- parse_uuid lib value ;; parse_uuid lib v) = parse_uuid lib value.
Proof.
  repeat split; destruct value as [s| | | | | | |]; try reflexivity; cbn.
  - destruct (parser_parse lib s) as [dt|e]; cbn; [reflexivity|].
    destruct (value_or_type_error e); reflexivity.
  - destruct (parser_parse lib s) as [dt|e]; cbn; [reflexivity|].
    destruct (value_or_type_error e); reflexivity.
  - destruct (parser_parse lib s) as [dt|e]; cbn; [reflexivity|].
    destruct (value_or_type_error e); reflexivity.
  - destruct (uuid_UUID lib s) as [u|e]; cbn; [reflexivity|].
    destruct (value_or_type_error e); reflexivity.
Qed.

(** X10. On text, the date hook and the time hook return the date and the
    time of the parsed datetime; a [ValueError] or [TypeError] of the parser
    becomes a [ValueError] whose message names the target ([date], [time])
    and the text; an exception of another class goes through. *)
Theorem date_time_hooks_parse_or_reject (lib : parsers) (s : string) :
  parse_date lib (PStr s) =
    match parser_parse lib s with
    | Ok dt => Ok (PDate (dt_date dt))
    | Err e =>
        if value_or_type_error e
        then Err (ValueError ("Invalid date format: " ++ s))
        else Err e
    end
  /\ parse_time lib (PStr s) =
    match parser_parse lib s with
    | Ok dt => Ok (PTime (dt_time dt))
    | Err e =>
        if value_or_type_error e
        then Err (ValueError ("Invalid time format: " ++ s))
        else Err e
    end.
Proof.
  split; cbn; destruct (parser_parse lib s) as [dt|e]; cbn; try reflexivity;
    destruct (value_or_type_error e); reflexivity.
Qed.

Lemma dict_keys_set_has {V : Type} (key : string) (v : V) (d : dict V) :
  In key (dict_keys (dict_set key v d)).
Proof.
  induction d as [|[k x] d IH]; cbn; [left; reflexivity|].
  destruct (String.eqb_spec k key) as [->|Hne]; cbn; [left; reflexivity|].
  right. exact IH.
Qed.

Lemma dict_keys_set_keeps {V : Type} (key k : string) (v : V) (d : dict V) :
  In k (dict_keys d) -> In k (dict_keys (dict_set key v d)).
Proof.
  induction d as [|[k0 x] d IH]; cbn; [tauto|].
  destruct (String.eqb k0 key); cbn; [tauto|].
  intros [H|H]; [left; exact H | right; apply IH, H].
Qed.

Lemma dict_keys_update_base {V : Type} (k : string) (base other : dict V) :
  In k (dict_keys base) -> In k (dict_keys (dict_update base other)).
Proof.
  unfold dict_update. revert base.
  induction other as [|[k0 v] other IH]; intros base H; cbn [fold_left];
    [exact H|].
  apply IH. apply dict_keys_set_keeps. exact H.
Qed.

Lemma dict_keys_update_other {V : Type} (k : string) (base other : dict V) :
  In k (dict_keys other) -> In k (dict_keys (dict_update base other)).
Proof.
  revert base.
  induction other as [|[k0 v] other IH]; intros base; cbn; [tauto|].
  intros [->|H].
  - apply (dict_keys_update_base k (dict_set k v base) other).
    apply dict_keys_set_has.
  - apply (IH (dict_set k0 v base) H).
Qed.

(** X11. A user configuration with a key that is not a field of the
    installed [Config] makes [generate_dacite_config] fail with a
    [TypeError], once the schema is generated. *)
Theorem unknown_keyword_is_type_error (lib : parsers) (model : AvroModel)
    (key : string) :
  generate_schema model = Ok tt ->
  In key (dict_keys (user_overrides model)) ->
  ~ In key (Config_keywords lib) ->
  generate_dacite_config lib model = Err TypeError.
Proof.
  intros Hgen Hin Hbad.
  unfold generate_dacite_config. rewrite Hgen. cbn [bind].
  rewrite merged_dacite_config_eq. unfold Config_init.
  destruct (forallb (fun k => existsb (String.eqb k) (Config_keywords lib))
              (dict_keys (dict_update (default_dacite_config lib model)
                            (user_overrides model)))) eqn:E; [|reflexivity].
  exfalso. rewrite forallb_forall in E.
  specialize (E key (dict_keys_update_other _ _ _ Hin)).
  apply existsb_exists in E as (k' & Hk' & Heq).
  apply String.eqb_eq in Heq. subst k'. contradiction.
Qed.

Lemma unknown_keyword_is_type_error_witness :
  generate_dacite_config FixedFormat.lib
    {| klass_name := "User"; generate_schema := Ok tt;
       dacite_user_config := Some [ ("cast", CTypeList []);
                                    ("checkTypes", CBool true) ] |}
  = Err TypeError.
Proof.
  apply (unknown_keyword_is_type_error FixedFormat.lib _ "checkTypes");
    [reflexivity | right; left; reflexivity|].
  cbn. intros H. repeat destruct H as [H|H]; try discriminate. exact H.
Defined.

(** A keyword of a later [Config] is accepted. *)
Example later_keyword_accepted :
  is_ok (generate_dacite_config FixedFormat.lib
           {| klass_name := "User"; generate_schema := Ok tt;
              dacite_user_config := Some [("convert_key", CNone)] |}) = true.
Proof. reflexivity. Qed.

(** X12. A user configuration whose [cast] is not a list makes
    [generate_dacite_config] fail with an [AttributeError]: the enforced
    rules are added with [extend]. *)
Theorem non_list_cast_is_attribute_error (lib : parsers) (model : AvroModel)
    (v : cfg_value) :
  generate_schema model = Ok tt ->
  NoDup (dict_keys (user_overrides model)) ->
  (forall key, In key (dict_keys (user_overrides model)) -> In key Config_fields) ->
  dict_get "cast" (user_overrides model) = Some v ->
  (forall l, v <> CTypeList l) ->
  generate_dacite_config lib model = Err AttributeError.
Proof.
  intros Hgen Hnd Hkeys Hcast Hv.
  unfold generate_dacite_config. rewrite Hgen. cbn [bind].
  rewrite merged_dacite_config_eq.
  set (user := user_overrides model) in *.
  set (merged := dict_update (default_dacite_config lib model) user).
  assert (Hinit : forallb (fun k => existsb (String.eqb k) (Config_keywords lib))
                    (dict_keys merged) = true).
  { apply forallb_forall. intros k Hk.
    apply existsb_exists. exists k. split; [|apply String.eqb_refl].
    apply in_or_app. left.
    apply dict_keys_update_in in Hk as [Hk|Hk]; [|apply Hkeys, Hk].
    cbn in Hk |- *. tauto. }
  unfold Config_init. rewrite Hinit. cbn [bind cast].
  assert (Hc : kwarg "cast" (CTypeList []) merged = v).
  { unfold kwarg, merged. rewrite dict_get_update by assumption.
    rewrite Hcast. reflexivity. }
  rewrite Hc. destruct v; try reflexivity. exfalso. exact (Hv l eq_refl).
Qed.

Lemma non_list_cast_is_attribute_error_witness :
  generate_dacite_config FixedFormat.lib
    {| klass_name := "User"; generate_schema := Ok tt;
       dacite_user_config := Some [("cast", CTypeTuple [T_class "Color"])] |}
  = Err AttributeError.
Proof.
  apply (non_list_cast_is_attribute_error FixedFormat.lib _
           (CTypeTuple [T_class "Color"])).
  - reflexivity.
  - cbn. repeat constructor. cbn. tauto.
  - cbn. intros key Hk. repeat destruct Hk as [<-|Hk]; cbn; tauto.
  - reflexivity.
  - discriminate.
Defined.

(** X13. The configuration built is the defaults with the user entries put
    over them key by key.  A user [type_hooks] or [forward_references]
    replaces the default table as a whole: the five default hooks and the
    reference of the model to itself are there only when the user
    configuration does not give the key. *)
Theorem config_is_defaults_overridden (lib : parsers) (model : AvroModel) :
  generate_schema model = Ok tt ->
  valid_override (user_overrides model) ->
  generate_dacite_config lib model =
  Ok {| type_hooks :=
          kwarg "type_hooks" (default_type_hooks lib) (user_overrides model);
        cast := CTypeList (user_casts (user_overrides model) ++ enforced_casts);
        forward_references :=
          kwarg "forward_references"
            (CRefs [(klass_name model, T_class (klass_name model))])
            (user_overrides model);
        check_types := kwarg "check_types" (CBool false) (user_overrides model);
        strict := kwarg "strict" (CBool false) (user_overrides model);
        strict_unions_match :=
          kwarg "strict_unions_match" (CBool false) (user_overrides model) |}.
Proof.
  intros Hgen (Hnd & Hkeys & Hcast).
  unfold generate_dacite_config. rewrite Hgen. cbn [bind].
  rewrite merged_dacite_config_eq.
  set (user := user_overrides model) in *.
  set (merged := dict_update (default_dacite_config lib model) user).
  assert (Hinit : forallb (fun k => existsb (String.eqb k) (Config_keywords lib))
                    (dict_keys merged) = true).
  { apply forallb_forall. intros k Hk.
    apply existsb_exists. exists k. split; [|apply String.eqb_refl].
    apply in_or_app. left.
    apply dict_keys_update_in in Hk as [Hk|Hk]; [|apply Hkeys, Hk].
    cbn in Hk |- *. tauto. }
  assert (Hget : forall key default,
            kwarg key default merged =
            kwarg key (kwarg key default (default_dacite_config lib model)) user).
  { intros key default. unfold kwarg, merged.
    rewrite dict_get_update by assumption.
    destruct (dict_get key user); reflexivity. }
  unfold Config_init. rewrite Hinit. cbn [bind cast].
  assert (Hc : kwarg "cast" (CTypeList []) merged = CTypeList (user_casts user)).
  { rewrite Hget. unfold kwarg, user_casts.
    destruct (dict_get "cast" user) as [v|] eqn:E; [|reflexivity].
    destruct (Hcast v eq_refl) as (l & ->). reflexivity. }
  rewrite Hc. cbn [extend bind]. unfold set_cast.
  cbn [type_hooks forward_references check_types strict strict_unions_match].
  rewrite !Hget. reflexivity.
Qed.

Lemma config_is_defaults_overridden_witness :
  exists config,
    generate_dacite_config FixedFormat.lib hooked_model = Ok config /\
    type_hooks config = CHooks [(T_class "Color", fun v => Ok v)] /\
    strict config = CBool true /\
    check_types config = CBool false /\
    cast config = CTypeList [T_typing_Tuple; T_tuple; T_Enum].
Proof.
  eexists. split.
  - apply (config_is_defaults_overridden FixedFormat.lib hooked_model);
      [reflexivity | valid_override_tac].
  - repeat split.
Defined.
